(** * MoodFlow (src/App.tsx): validation, entry store and aggregation

    A shallow embedding of the logical core of [src/src/App.tsx]:
    the validators ([validateNumber], [sanitizeString], [validateDate]),
    the form pipeline ([validateForm], [handleSubmit]), the entry store
    update of line 135 ([upsert]), the chart window ([last30Days]), the
    per-drug aggregation ([drugAnalysis]) and the start-up load effect.

    Conventions of the embedding
    - a JavaScript string is a sequence of code units; the model keeps the
      code units below 256, i.e. Rocq's [string];
    - a JavaScript number is an IEEE 754 binary64 value, i.e. Rocq's
      primitive [float];
    - a time value (what [Date.prototype.getTime] returns) is an integer
      number of milliseconds, a [Z]; an invalid date is [None];
    - React state is passed explicitly: every handler maps a [State] to a
      [State];
    - what [JSON.parse] reads back from storage is a JSON value of any
      shape ([parsed]); the load effect installs it unchecked, so the
      component it leaves ([Mounted]) may hold something else than a list
      of entries. *)

From Stdlib Require Import ZArith List Ascii Lia Bool Permutation Sorted.
From Stdlib Require Import PrimFloat SpecFloat FloatOps.
From Stdlib Require String.
From stdpp Require Import gmap strings.
Import ListNotations.

Local Open Scope Z_scope.

(* ================================================================== *)
(** * Part I. The platform: strings, numbers, arrays, dates           *)
(* ================================================================== *)

Module JS.

(** ** Strings *)

Definition chars (s : string) : list ascii := String.list_ascii_of_string s.
Definition str (l : list ascii) : string := String.string_of_list_ascii l.

Definition code (c : ascii) : N := N_of_ascii c.
Definition chr (n : N) : ascii := ascii_of_N n.

(** [WhiteSpace] and [LineTerminator] code units below 256:
    TAB, LF, VT, FF, CR, SP and NBSP. *)
Definition isWhiteSpace (c : ascii) : bool :=
  let n := code c in
  ((9 <=? n) && (n <=? 13) || (n =? 32) || (n =? 160))%N.

Fixpoint dropWhile {A} (p : A -> bool) (l : list A) : list A :=
  match l with
  | [] => []
  | x :: l' => if p x then dropWhile p l' else l
  end.

Definition trimStart (l : list ascii) : list ascii := dropWhile isWhiteSpace l.
Definition trimEnd (l : list ascii) : list ascii :=
  rev (dropWhile isWhiteSpace (rev l)).

(** [String.prototype.trim] *)
Definition trimChars (l : list ascii) : list ascii := trimEnd (trimStart l).
Definition trim (s : string) : string := str (trimChars (chars s)).

(** [String.prototype.toLowerCase] on code units below 256: A-Z and the
    Latin-1 capitals (all of 0xC0-0xDE but the multiplication sign). *)
Definition lowerChar (c : ascii) : ascii :=
  let n := code c in
  if ((65 <=? n) && (n <=? 90)
      || (192 <=? n) && (n <=? 222) && negb (n =? 215))%N
  then chr (n + 32) else c.
Definition toLowerCase (s : string) : string := str (map lowerChar (chars s)).

(** [s.split(sep)] for a one-character separator: it always yields at
    least one piece. *)
Fixpoint splitChars (sep : ascii) (l : list ascii) : list (list ascii) :=
  match l with
  | [] => [[]]
  | c :: l' =>
      if Ascii.eqb c sep then [] :: splitChars sep l'
      else match splitChars sep l' with
           | [] => [[c]]
           | p :: ps => (c :: p) :: ps
           end
  end.
Definition split (sep : ascii) (s : string) : list string :=
  map str (splitChars sep (chars s)).

(** [s.substring(0, n)] *)
Definition substring0 (n : nat) (s : string) : string :=
  str (firstn n (chars s)).

(** [s.replace(/[set]/g, '')]: every code unit of the class is removed. *)
Definition removeClass (cls : ascii -> bool) (s : string) : string :=
  str (List.filter (fun c => negb (cls c)) (chars s)).

(** Truthiness of a string: non-empty. *)
Definition truthy (s : string) : bool :=
  match s with EmptyString => false | _ => true end.

(** [a.localeCompare(b)], as -1, 0 or 1.  The store compares the values of
    the date input, strings of digits and hyphens of one shape, on which
    the locale's collation and the order of code units agree; the model is
    the code-unit order. *)
Definition localeCompare (a b : string) : Z :=
  match String.compare a b with
  | Lt => -1
  | Eq => 0
  | Gt => 1
  end.

(** ** Arrays *)

(** [Array.prototype.sort] is stable.  With a consistent comparator its
    result is the stable insertion of the elements from left to right:
    [x] goes behind every element that does not sort after it. *)
Fixpoint sortInsert {A} (cmp : A -> A -> Z) (x : A) (l : list A) : list A :=
  match l with
  | [] => [x]
  | y :: l' => if cmp y x <=? 0 then y :: sortInsert cmp x l' else x :: l
  end.

Definition sort {A} (cmp : A -> A -> Z) (l : list A) : list A :=
  fold_left (fun acc x => sortInsert cmp x acc) l [].

(** [a.slice(-n)]: the last [n] elements, all of them when there are fewer. *)
Definition sliceLast {A} (n : nat) (l : list A) : list A :=
  skipn (length l - n)%nat l.

(** ** Numbers *)

Definition isDigit (c : ascii) : bool := ((48 <=? code c) && (code c <=? 57))%N.

(** Value of a digit in radix 10 or 16 ([None] when it is none). *)
Definition digitOf (radix : Z) (c : ascii) : option Z :=
  let n := Z.of_N (code c) in
  if (48 <=? n) && (n <=? 57) then Some (n - 48)
  else if (radix =? 16) && (97 <=? n) && (n <=? 102) then Some (n - 87)
  else if (radix =? 16) && (65 <=? n) && (n <=? 70) then Some (n - 55)
  else None.

Fixpoint span {A} (p : A -> bool) (l : list A) : list A * list A :=
  match l with
  | [] => ([], [])
  | x :: l' =>
      if p x then let (a, b) := span p l' in (x :: a, b) else ([], l)
  end.

Definition digitsValue (radix : Z) (ds : list ascii) : Z :=
  fold_left (fun acc c => radix * acc + default 0 (digitOf radix c)) ds 0.

(** The binary64 value nearest to an integer (ties to even). *)
Definition ofZ (z : Z) : float :=
  SF2Prim (binary_normalize prec emax z 0 false).

(** The binary64 value nearest to [m * 10^k], for [0 <= m]: the quotient
    is computed on at least 61 bits and carries a sticky bit, so that one
    rounding decides.  Exponents out of the format's range are cut short
    (overflow to infinity, underflow to zero). *)
Definition roundDecimal (m k : Z) : float :=
  if m =? 0 then zero
  else if 310 <? k then infinity
  else if 0 <=? k then ofZ (m * 10 ^ k)
  else if k + Z.log2 m / 3 + 1 <? -330 then zero
  else
    let d := 10 ^ (- k) in
    let s := Z.max 0 (62 + Z.log2 d - Z.log2 m) in
    let n := m * 2 ^ s in
    let mant := 2 * (n / d) + (if n mod d =? 0 then 0 else 1) in
    SF2Prim (binary_normalize prec emax mant (- s - 1) false).

Definition signed (neg : bool) (x : float) : float :=
  if neg then PrimFloat.opp x else x.

(** An optional sign in front of a literal. *)
Definition takeSign (l : list ascii) : bool * list ascii :=
  match l with
  | c :: r =>
      if (code c =? 45)%N then (true, r)
      else if (code c =? 43)%N then (false, r)
      else (false, l)
  | [] => (false, l)
  end.

Fixpoint startsWith (p l : list ascii) : bool :=
  match p, l with
  | [], _ => true
  | a :: p', b :: l' => Ascii.eqb a b && startsWith p' l'
  | _ :: _, [] => false
  end.

(** The exponent part [e], [E] with an optional sign and digits; it counts
    only when at least one digit follows. *)
Definition exponentPart (l : list ascii) : Z :=
  match l with
  | c :: r =>
      if ((code c =? 101) || (code c =? 69))%N then
        let (neg, r1) := takeSign r in
        let (ed, _) := span isDigit r1 in
        match ed with
        | [] => 0
        | _ => if neg then - digitsValue 10 ed else digitsValue 10 ed
        end
      else 0
  | [] => 0
  end.

(** [parseFloat]: leading white space is skipped, the longest prefix that
    is a decimal literal is read, [NaN] when there is none. *)
Definition parseFloat (s : string) : float :=
  let (neg, l1) := takeSign (trimStart (chars s)) in
  if startsWith (chars "Infinity") l1 then signed neg infinity
  else
    let (ip, l2) := span isDigit l1 in
    let (fp, l3) :=
      match l2 with
      | c :: r => if (code c =? 46)%N then span isDigit r else ([], l2)
      | [] => ([], l2)
      end in
    match ip ++ fp with
    | [] => nan
    | ds =>
        signed neg
          (roundDecimal (digitsValue 10 ds)
                        (exponentPart l3 - Z.of_nat (length fp)))
    end.

(** [parseInt] without a radix: decimal, or hexadecimal behind [0x]. *)
Definition parseInt (s : string) : float :=
  let (neg, l1) := takeSign (trimStart (chars s)) in
  let (radix, l2) :=
    match l1 with
    | z :: x :: r =>
        if ((code z =? 48) && ((code x =? 120) || (code x =? 88)))%N
        then (16, r) else (10, l1)
    | _ => (10, l1)
    end in
  let (ds, _) := span (fun c => bool_decide (is_Some (digitOf radix c))) l2 in
  match ds with
  | [] => nan
  | _ => signed neg (ofZ (digitsValue radix ds))
  end.

Definition isNaN (x : float) : bool := PrimFloat.is_nan x.

(** Decimal digits of a natural number, most significant first. *)
Fixpoint digitsOf (fuel : nat) (n : Z) (acc : list ascii) : list ascii :=
  match fuel with
  | O => acc
  | S fuel' =>
      let acc' := chr (Z.to_N (48 + n mod 10)) :: acc in
      if n / 10 =? 0 then acc' else digitsOf fuel' (n / 10) acc'
  end.

(** [n.toString()] for an integer [n]. *)
Definition intToString (n : Z) : string :=
  let ds := digitsOf (S (Z.to_nat (Z.log2 (Z.abs n)))) (Z.abs n) [] in
  str (if n <? 0 then chr 45 :: ds else ds).

(** [String(n).padStart(w, '0')] for a natural number [n]. *)
Definition padZero (w : nat) (n : Z) : string :=
  let ds := chars (intToString n) in
  str (repeat (chr 48) (w - length ds) ++ ds).

(** ** Dates

    Day numbers and time values follow ECMAScript's [MakeDay] and
    [MakeDate].  Months are numbered from 0 in the [Date] interface. *)

Definition msPerDay : Z := 86400000.

Definition DayFromYear (y : Z) : Z :=
  365 * (y - 1970) + (y - 1969) / 4 - (y - 1901) / 100 + (y - 1601) / 400.

Definition InLeapYear (y : Z) : bool :=
  (y mod 4 =? 0) && (negb (y mod 100 =? 0) || (y mod 400 =? 0)).

(** Days of the year before month [m] (0 to 11). *)
Definition MonthStart (leap : bool) (m : Z) : Z :=
  let l := if leap then 1 else 0 in
  if m =? 0 then 0 else if m =? 1 then 31 else if m =? 2 then 59 + l
  else if m =? 3 then 90 + l else if m =? 4 then 120 + l
  else if m =? 5 then 151 + l else if m =? 6 then 181 + l
  else if m =? 7 then 212 + l else if m =? 8 then 243 + l
  else if m =? 9 then 273 + l else if m =? 10 then 304 + l
  else 334 + l.

Definition DaysInMonth (leap : bool) (m : Z) : Z :=
  if m =? 1 then (if leap then 29 else 28)
  else if (m =? 3) || (m =? 5) || (m =? 8) || (m =? 10) then 30
  else 31.

(** [MakeDay(year, month, date)]: months and days out of range carry over. *)
Definition MakeDay (year month date : Z) : Z :=
  let ym := year + month / 12 in
  let mn := month mod 12 in
  DayFromYear ym + MonthStart (InLeapYear ym) mn + date - 1.

Definition MakeDate (day time : Z) : Z := day * msPerDay + time.

(** What [new Date()] observes: the local calendar fields of the present
    instant ([getFullYear], [getMonth], [getDate]), the milliseconds since
    local midnight, and the offset of local time from UTC in milliseconds
    (a zone without daylight saving). *)
Record Clock := mkClock {
  cYear : Z;
  cMonth : Z;
  cDate : Z;
  cTime : Z;
  cTZA : Z
}.

(** The time value of [new Date()] (and of [Date.now()]). *)
Definition now (c : Clock) : Z :=
  MakeDate (MakeDay (cYear c) (cMonth c) (cDate c)) (cTime c) - cTZA c.

(** The time value of [new Date(y, m, d)]: midnight in local time; a year
    from 0 to 99 stands for 1900 + year. *)
Definition newDateLocal (c : Clock) (y m d : Z) : Z :=
  let y' := if (0 <=? y) && (y <=? 99) then 1900 + y else y in
  MakeDate (MakeDay y' m d) 0 - cTZA c.

(** Exactly [n] digits at the front of [l]. *)
Definition takeDigits (n : nat) (l : list ascii)
  : option (Z * list ascii) :=
  let ds := firstn n l in
  if (length ds =? n)%nat && forallb isDigit ds
  then Some (digitsValue 10 ds, skipn n l) else None.

Definition isHyphen (c : ascii) : bool := (code c =? 45)%N.

(** The date-only forms of the date-time string format: [YYYY],
    [YYYY-MM] and [YYYY-MM-DD], as (year, month 1-12, day).  A day that
    the month does not have is rejected.  Date-time forms and the
    engines' own legacy formats are not modelled: they read as invalid. *)
Definition dateFields (s : string) : option (Z * Z * Z) :=
  match takeDigits 4 (chars s) with
  | None => None
  | Some (y, []) => Some (y, 1, 1)
  | Some (y, h1 :: r1) =>
      if negb (isHyphen h1) then None else
      match takeDigits 2 r1 with
      | None => None
      | Some (m, r2) =>
          if negb ((1 <=? m) && (m <=? 12)) then None else
          match r2 with
          | [] => Some (y, m, 1)
          | h2 :: r3 =>
              if negb (isHyphen h2) then None else
              match takeDigits 2 r3 with
              | Some (d, []) =>
                  if (1 <=? d) && (d <=? DaysInMonth (InLeapYear y) (m - 1))
                  then Some (y, m, d) else None
              | _ => None
              end
          end
      end
  end.

(** The time value of [new Date(s)]: a date-only form is UTC midnight. *)
Definition Date_parse (s : string) : option Z :=
  match dateFields s with
  | Some (y, m, d) => Some (MakeDate (MakeDay y (m - 1) d) 0)
  | None => None
  end.

(** [format(new Date(), 'yyyy-MM-dd')] of date-fns: the local date. *)
Definition formatToday (c : Clock) : string :=
  padZero 4 (cYear c) +:+ "-" +:+ padZero 2 (cMonth c + 1)
    +:+ "-" +:+ padZero 2 (cDate c).

(** ** Completions: a value, or a thrown exception *)

Inductive completion (A : Type) : Type :=
  | Normal (a : A)
  | Throw (e : string).
Arguments Normal {A} a.
Arguments Throw {A} e.

(** [try { body } catch (e) { handler e }] *)
Definition tryCatch {A} (body : completion A) (handler : string -> completion A)
  : completion A :=
  match body with
  | Normal a => Normal a
  | Throw e => handler e
  end.

End JS.

(* ================================================================== *)
(** * Part II. The application (src/src/App.tsx)                      *)
(* ================================================================== *)

(** ** Data model *)

(** [interface MoodEntry] (lines 30-40). *)
Module MoodEntry.
Record t := mk {
  id : string;
  date : string;
  sleep : float;
  stress : float;
  symptoms : float;
  mood : float;
  engagement : float;
  drugNames : string;
  notes : string
}.
End MoodEntry.

(** The [formData] state (lines 63-72): the raw text of every input. *)
Module FormData.
Record t := mk {
  date : string;
  sleep : string;
  stress : string;
  symptoms : string;
  mood : string;
  engagement : string;
  drugNames : string;
  notes : string
}.

(** [formData[field]] for the fields the validator reads by name. *)
Definition get (field : string) (f : t) : string :=
  if String.eqb field "stress" then stress f
  else if String.eqb field "symptoms" then symptoms f
  else if String.eqb field "mood" then mood f
  else if String.eqb field "engagement" then engagement f
  else if String.eqb field "date" then date f
  else if String.eqb field "sleep" then sleep f
  else if String.eqb field "drugNames" then drugNames f
  else notes f.
End FormData.

(** The component's state: [entries], [formData] and [errors]. *)
Record State := mkState {
  entries : list MoodEntry.t;
  formData : FormData.t;
  errors : gmap string string
}.

(** The blank form the component starts with and resets to. *)
Definition blankForm (clk : JS.Clock) : FormData.t :=
  FormData.mk (JS.formatToday clk) EmptyString EmptyString EmptyString
              EmptyString EmptyString EmptyString EmptyString.

Definition initialState (clk : JS.Clock) : State :=
  mkState [] (blankForm clk) ∅.

(** ** Validation utilities (lines 43-58) *)

Definition validateNumber (value : string) (min max : float) : option float :=
  let num := JS.parseFloat value in
  if JS.isNaN num || PrimFloat.ltb num min || PrimFloat.ltb max num
  then None else Some num.

(** The character class of line 50, by code unit: less-than, greater-than,
    double quote, apostrophe, slash, semicolon, the two parentheses,
    ampersand and plus. *)
Definition unsafeCodes : list N := [60; 62; 34; 39; 47; 59; 40; 41; 38; 43]%N.
Definition unsafeChar (c : ascii) : bool :=
  existsb (N.eqb (JS.code c)) unsafeCodes.

Definition sanitizeString (input : string) : string :=
  JS.substring0 500 (JS.trim (JS.removeClass unsafeChar input)).

Definition validateDate (clk : JS.Clock) (dateString : string) : bool :=
  let date := JS.Date_parse dateString in
  let today := JS.now clk in
  let oneYearAgo :=
    JS.newDateLocal clk (JS.cYear clk - 1) (JS.cMonth clk) (JS.cDate clk) in
  match date with
  | None => false
  | Some t => (oneYearAgo <=? t) && (t <=? today)
  end.

(** ** The form (lines 92-149) *)

Definition rangedFields : list string :=
  ["stress"; "symptoms"; "mood"; "engagement"].

Definition checkRanged (formData : FormData.t)
    (newErrors : gmap string string) (field : string) : gmap string string :=
  match validateNumber (FormData.get field formData) 1 10 with
  | None => <[field := field +:+ " must be between 1-10"]> newErrors
  | Some _ => newErrors
  end.

(** [validateForm]: the error record it hands to [setErrors], and its
    result. *)
Definition validateForm (clk : JS.Clock) (formData : FormData.t)
  : gmap string string * bool :=
  let e0 : gmap string string := ∅ in
  let e1 :=
    if negb (validateDate clk (FormData.date formData))
    then <["date" := "Please enter a valid date within the last year"]> e0
    else e0 in
  let e2 :=
    match validateNumber (FormData.sleep formData) 0 24 with
    | None => <["sleep" := "Sleep must be between 0-24 hours"]> e1
    | Some _ => e1
    end in
  let e3 := fold_left (checkRanged formData) rangedFields e2 in
  let e4 :=
    if (String.length (FormData.notes formData) <? 10)%nat
    then <["notes" := "Notes must be at least 10 characters"]> e3
    else e3 in
  (e4, (size e4 =? 0)%nat).

(** The comparator of line 135: later dates first. *)
Definition byDateDesc (a b : MoodEntry.t) : Z :=
  JS.localeCompare (MoodEntry.date b) (MoodEntry.date a).

(** The state update of line 135:
    [[...prev.filter(e => e.date !== formData.date), newEntry].sort(...)]. *)
Definition upsert (formDate : string) (newEntry : MoodEntry.t)
    (prev : list MoodEntry.t) : list MoodEntry.t :=
  JS.sort byDateDesc
    (List.filter (fun e => negb (String.eqb (MoodEntry.date e) formDate)) prev
       ++ [newEntry]).

Definition makeEntry (clk : JS.Clock) (formData : FormData.t) : MoodEntry.t :=
  MoodEntry.mk
    (JS.intToString (JS.now clk))
    (FormData.date formData)
    (JS.parseFloat (FormData.sleep formData))
    (JS.parseInt (FormData.stress formData))
    (JS.parseInt (FormData.symptoms formData))
    (JS.parseInt (FormData.mood formData))
    (JS.parseInt (FormData.engagement formData))
    (sanitizeString (FormData.drugNames formData))
    (sanitizeString (FormData.notes formData)).

Definition handleSubmit (clk : JS.Clock) (st : State) : State :=
  let (newErrors, ok) := validateForm clk (formData st) in
  if negb ok then mkState (entries st) (formData st) newErrors
  else
    let newEntry := makeEntry clk (formData st) in
    mkState (upsert (FormData.date (formData st)) newEntry (entries st))
            (blankForm clk)
            ∅.

(** ** Chart window (line 152) *)

Definition last30Days (entries : list MoodEntry.t) : list MoodEntry.t :=
  rev (JS.sliceLast 30 entries).

(** ** Drug analysis (lines 196-209) *)

Record DrugStat := mkStat {
  totalMood : float;
  count : float;
  avgMood : float
}.

(** One pass of the body of [drugs.forEach] on the record [acc\[drug\]]. *)
Definition bump (entryMood : float) (st : DrugStat) : DrugStat :=
  let t := PrimFloat.add (totalMood st) entryMood in
  let c := PrimFloat.add (count st) 1%float in
  mkStat t c (PrimFloat.div t c).

Definition freshStat : DrugStat := mkStat 0%float 0%float 0%float.

(** The accumulator is the object literal [{}]: what it does not own it
    inherits from [Object.prototype].  These are the names found there. *)
Definition prototypeKeys : list string :=
  ["constructor"; "__proto__"; "hasOwnProperty"; "isPrototypeOf";
   "propertyIsEnumerable"; "toLocaleString"; "toString"; "valueOf";
   "__defineGetter__"; "__defineSetter__"; "__lookupGetter__";
   "__lookupSetter__"].

Definition inherited (key : string) : bool :=
  existsb (String.eqb key) prototypeKeys.

(** The body of [drugs.forEach] on the own properties of [acc].  When
    [acc\[drug\]] is an inherited object the test [!acc\[drug\]] fails,
    nothing is created, and the three updates land on that object: [acc]
    gains no property. *)
Definition accumulate (entryMood : float) (acc : gmap string DrugStat)
    (drug : string) : gmap string DrugStat :=
  match acc !! drug with
  | Some st => <[drug := bump entryMood st]> acc
  | None =>
      if inherited drug then acc
      else <[drug := bump entryMood freshStat]> acc
  end.

(** [entry.drugNames.split(',').map(d => d.trim().toLowerCase())
    .filter(Boolean)] *)
Definition drugsOf (drugNames : string) : list string :=
  List.filter JS.truthy
    (map (fun d => JS.toLowerCase (JS.trim d)) (JS.split (JS.chr 44) drugNames)).

Definition drugStep (acc : gmap string DrugStat) (entry : MoodEntry.t)
  : gmap string DrugStat :=
  if JS.truthy (JS.trim (MoodEntry.drugNames entry))
  then fold_left (accumulate (MoodEntry.mood entry))
                 (drugsOf (MoodEntry.drugNames entry)) acc
  else acc.

(** The own enumerable properties of [drugAnalysis], which is what
    [Object.keys], [Object.values] and [Object.entries] show the views. *)
Definition drugAnalysis (entries : list MoodEntry.t) : gmap string DrugStat :=
  fold_left drugStep entries ∅.

(** ** Loading on mount (lines 76-85) *)

Definition storageKey : string := "moodTrackerEntries".

(** A JSON value, as [JSON.parse] builds it. *)
Module JSON.
#[local] Set Warnings "-register-all".
Inductive t : Type :=
  | Null
  | Bool (b : bool)
  | Number (x : float)
  | Text (s : string)
  | Array (items : list t)
  | Object (members : list (string * t)).
End JSON.

(** What [JSON.parse] returns and line 80 hands to [setEntries]: an array
    of [MoodEntry] objects, kept as the entries it lists, or a value of
    any other shape ([null], a number, a string, an object, an array of
    other things).  Nothing in the effect tells the two apart. *)
Inductive parsed : Type :=
  | Stored (v : list MoodEntry.t)
  | Foreign (v : JSON.t).

(** The component after the effect: a state whose [entries] is a list of
    entries, or the foreign value that [entries] was handed, beside the
    rest of the state. *)
Inductive Mounted : Type :=
  | Ready (st : State)
  | Misfit (entries : JSON.t) (formData : FormData.t)
           (errors : gmap string string).

Section Load.

(** [JSON.parse] is the platform's: it returns a value or throws a
    [SyntaxError]. *)
Variable JSON_parse : string -> JS.completion parsed.

(** The effect: the component and the console after it, or an exception
    that escapes it.  [localStorage] maps keys to texts; [getItem] of a
    missing key is [null]. *)
Definition loadEffect (localStorage : gmap string string)
    (st : State) (console : list string)
  : JS.completion (Mounted * list string) :=
  match localStorage !! storageKey with
  | None => JS.Normal (Ready st, console)
  | Some savedEntries =>
      if JS.truthy savedEntries then
        JS.tryCatch
          (match JSON_parse savedEntries with
           | JS.Normal (Stored v) =>
               JS.Normal (Ready (mkState v (formData st) (errors st)), console)
           | JS.Normal (Foreign v) =>
               JS.Normal (Misfit v (formData st) (errors st), console)
           | JS.Throw e => JS.Throw e
           end)
          (fun error =>
             JS.Normal
               (Ready st, console ++ ["Error loading entries: " +:+ error]))
      else JS.Normal (Ready st, console)
  end.

End Load.

(** Line 152 on a value of any shape: [entries.slice(-30).reverse()].
    Only an array has both methods: [null] has no properties at all, a
    string has [slice] but what it returns has no [reverse], and a number,
    a boolean or a parsed object has no function [slice]. *)
Definition windowOf (entries : JSON.t) : JS.completion (list JSON.t) :=
  match entries with
  | JSON.Array items => JS.Normal (rev (JS.sliceLast 30 items))
  | JSON.Null =>
      JS.Throw "TypeError: Cannot read properties of null (reading 'slice')"
  | JSON.Text _ =>
      JS.Throw "TypeError: entries.slice(...).reverse is not a function"
  | JSON.Bool _ | JSON.Number _ | JSON.Object _ =>
      JS.Throw "TypeError: entries.slice is not a function"
  end.

(** ** Typing, submitting, saving *)

(** The [onChange] handlers of the inputs (lines 295, 310, 336, 355 and
    367): [setFormData({...formData, [field]: value})], for the eight
    fields the form has. *)
Definition setField (field value : string) (f : FormData.t) : FormData.t :=
  let '(FormData.mk date sleep stress symptoms mood engagement drugNames notes)
    := f in
  if String.eqb field "date"
  then FormData.mk value sleep stress symptoms mood engagement drugNames notes
  else if String.eqb field "sleep"
  then FormData.mk date value stress symptoms mood engagement drugNames notes
  else if String.eqb field "stress"
  then FormData.mk date sleep value symptoms mood engagement drugNames notes
  else if String.eqb field "symptoms"
  then FormData.mk date sleep stress value mood engagement drugNames notes
  else if String.eqb field "mood"
  then FormData.mk date sleep stress symptoms value engagement drugNames notes
  else if String.eqb field "engagement"
  then FormData.mk date sleep stress symptoms mood value drugNames notes
  else if String.eqb field "drugNames"
  then FormData.mk date sleep stress symptoms mood engagement value notes
  else if String.eqb field "notes"
  then FormData.mk date sleep stress symptoms mood engagement drugNames value
  else f.

Definition onChange (field value : string) (st : State) : State :=
  mkState (entries st) (setField field value (formData st)) (errors st).

(** What the user does with the form: type into a field, or submit (at
    some instant). *)
Inductive Event : Type :=
  | Change (field value : string)
  | Submit (clk : JS.Clock).

Definition dispatch (st : State) (ev : Event) : State :=
  match ev with
  | Change field value => onChange field value st
  | Submit clk => handleSubmit clk st
  end.

Definition run (evs : list Event) (st : State) : State :=
  fold_left dispatch evs st.

(** [useEffect] of lines 88-90:
    [localStorage.setItem('moodTrackerEntries', JSON.stringify(entries))]. *)
Definition saveEffect (JSON_stringify : list MoodEntry.t -> string)
    (entries : list MoodEntry.t) (localStorage : gmap string string)
  : gmap string string :=
  <[storageKey := JSON_stringify entries]> localStorage.

(* ================================================================== *)
(** * Part III. Vocabulary of the statements, and sample data         *)
(* ================================================================== *)

(** ** Strings *)

(** A text is clean when sanitizing has nothing to strip from it. *)
Definition cleanText (s : string) : Prop :=
  Forall (fun c => unsafeChar c = false) (JS.chars s)
  /\ match JS.chars s with
     | [] => True
     | c :: _ => JS.isWhiteSpace c = false
     end
  /\ match rev (JS.chars s) with
     | [] => True
     | c :: _ => JS.isWhiteSpace c = false
     end.

(** ** Sorting *)

(** [a] may stand before [b]. *)
Definition notAfter {A} (cmp : A -> A -> Z) (a b : A) : Prop := cmp a b <= 0.

(** ** The order of date strings *)

Definition strLt (a b : string) : Prop := String.compare a b = Lt.

(** ** The entry store *)

Definition dates (l : list MoodEntry.t) : list string := map MoodEntry.date l.

(** At most one entry per date. *)
Definition uniqueDates (l : list MoodEntry.t) : Prop := List.NoDup (dates l).

(** [a] is dated strictly later than [b]. *)
Definition newer (a b : MoodEntry.t) : Prop :=
  strLt (MoodEntry.date b) (MoodEntry.date a).

(** Every entry is dated strictly later than all that follow it. *)
Definition sortedDesc (l : list MoodEntry.t) : Prop := StronglySorted newer l.

Definition otherDate (d : string) (e : MoodEntry.t) : bool :=
  negb (String.eqb (MoodEntry.date e) d).

(** The stores the application reaches by submissions from the empty one. *)
Fixpoint upsertAll (es : list MoodEntry.t) (store : list MoodEntry.t)
  : list MoodEntry.t :=
  match es with
  | [] => store
  | e :: es' => upsertAll es' (upsert (MoodEntry.date e) e store)
  end.

(** Two entries to run the store on. *)
Definition entryJune1 : MoodEntry.t :=
  MoodEntry.mk "1717200000000" "2024-06-01" 7.5%float 3%float 2%float
               8%float 6%float "caffeine" "a quiet day at home".
Definition entryJune2 : MoodEntry.t :=
  MoodEntry.mk "1717286400000" "2024-06-02" 6%float 5%float 1%float
               4%float 7%float "Caffeine, vitamin d" "long walk, slept late".
Definition entryJune1b : MoodEntry.t :=
  MoodEntry.mk "1717372800000" "2024-06-01" 8%float 2%float 1%float
               9%float 8%float "ibuprofen" "rewritten in the evening".

(** ** The chart window *)

(** A month of entries, one a day. *)
Definition mayEntry (day : nat) : MoodEntry.t :=
  MoodEntry.mk (JS.intToString (Z.of_nat day))
               ("2024-05-" +:+ JS.padZero 2 (Z.of_nat day))
               7%float 3%float 2%float 6%float 5%float
               EmptyString "an ordinary day".

Definition mayStore : list MoodEntry.t :=
  upsertAll (map mayEntry (seq 1 31)) [].

(** ** Drug analysis *)

(** The drug names one entry contributes, behind the guard of line 197. *)
Definition mentions (entry : MoodEntry.t) : list string :=
  if JS.truthy (JS.trim (MoodEntry.drugNames entry))
  then drugsOf (MoodEntry.drugNames entry) else [].

(** The moods under which [drug] is mentioned, in the order of the
    entries, once for every mention. *)
Definition mentionMoods (drug : string) (entries : list MoodEntry.t)
  : list float :=
  flat_map
    (fun e => map (fun _ => MoodEntry.mood e)
                  (List.filter (String.eqb drug) (mentions e)))
    entries.

(** [count += 1], [totalMood += mood], [avgMood = totalMood / count], for
    every mood of the list, on a record that starts at zero. *)
Definition tally (moods : list float) (start : option DrugStat)
  : option DrugStat :=
  fold_left (fun o m => Some (bump m (default freshStat o))) moods start.

Definition moodOnly (m : float) (drugs : string) : MoodEntry.t :=
  MoodEntry.mk "0" "2024-06-01" 7%float 3%float 3%float m 5%float
               drugs "nothing to report".

(** ** Form validation *)

Definition isSome {A} (o : option A) : bool :=
  match o with Some _ => true | None => false end.

(** The fields [validateForm] checks. *)
Definition checkedFields : list string :=
  ["date"; "sleep"; "stress"; "symptoms"; "mood"; "engagement"; "notes"].

(** The check [validateForm] makes of one field. *)
Definition fieldOk (clk : JS.Clock) (f : FormData.t) (field : string) : bool :=
  if String.eqb field "date" then validateDate clk (FormData.date f)
  else if String.eqb field "sleep"
       then isSome (validateNumber (FormData.sleep f) 0 24)
  else if String.eqb field "notes"
       then negb (String.length (FormData.notes f) <? 10)%nat
  else isSome (validateNumber (FormData.get field f) 1 10).

Definition messageOf (field : string) : string :=
  if String.eqb field "date"
  then "Please enter a valid date within the last year"
  else if String.eqb field "sleep" then "Sleep must be between 0-24 hours"
  else if String.eqb field "notes" then "Notes must be at least 10 characters"
  else field +:+ " must be between 1-10".

(** What the error record should hold for a field: its message when the
    field is a checked one that fails, nothing otherwise. *)
Definition reportFor (clk : JS.Clock) (f : FormData.t) (field : string)
  : option string :=
  if existsb (String.eqb field) checkedFields && negb (fieldOk clk f field)
  then Some (messageOf field) else None.

(** The state an accepted submission leaves. *)
Definition accepted (clk : JS.Clock) (st : State) : State :=
  mkState (upsert (FormData.date (formData st))
                  (makeEntry clk (formData st)) (entries st))
          (blankForm clk) ∅.

(** Noon of 15 June 2024, in a browser whose local time is UTC. *)
Definition noonJune15 : JS.Clock := JS.mkClock 2024 5 15 43200000 0.

Definition formNineNotes : FormData.t :=
  FormData.mk "2024-06-15" "7.5" "3" "2" "8" "6" "caffeine" "123456789".
Definition formMoodEleven : FormData.t :=
  FormData.mk "2024-06-15" "7.5" "3" "2" "11" "6" "caffeine"
              "a day like any other".
Definition formAllWrong : FormData.t :=
  FormData.mk "2024-06-16" "25" "0" "x" "11" "-1" "caffeine" "too short".

(** ** Stored notes *)

(** The invariant as the specification words it: what a validated
    submission stores has notes of at least 10 characters. *)
Definition storesLongNotes (clk : JS.Clock) (st : State) : Prop :=
  snd (validateForm clk (formData st)) = true ->
  forall e, In e (entries (handleSubmit clk st)) ->
            MoodEntry.date e = FormData.date (formData st) ->
            (10 <= String.length (MoodEntry.notes e))%nat.

Definition formBrackets : FormData.t :=
  FormData.mk "2024-06-15" "7.5" "3" "2" "8" "6" "caffeine" "<<<<<>>>>>".

Definition formPlain : FormData.t :=
  FormData.mk "2024-06-15" "7.5" "3" "2" "8" "6" "caffeine"
              "a day like any other".

(** ** Date validation *)

(** A real calendar date: month 1 to 12, a day the month has. *)
Definition validYMD (y m d : Z) : Prop :=
  1 <= m <= 12 /\ 1 <= d <= JS.DaysInMonth (JS.InLeapYear y) (m - 1).

(** The day number of a calendar date (days since 1 January 1970). *)
Definition dayNumber (ymd : Z * Z * Z) : Z :=
  let '(y, m, d) := ymd in JS.MakeDay y (m - 1) d.

(** The order of calendar dates. *)
Definition ymdLe (a b : Z * Z * Z) : Prop :=
  let '(y1, m1, d1) := a in
  let '(y2, m2, d2) := b in
  y1 < y2 \/ (y1 = y2 /\ (m1 < m2 \/ (m1 = m2 /\ d1 <= d2))).

(** A clock that shows a real date of the present era and a time of day. *)
Definition validClock (clk : JS.Clock) : Prop :=
  1970 <= JS.cYear clk
  /\ 0 <= JS.cMonth clk <= 11
  /\ 1 <= JS.cDate clk
       <= JS.DaysInMonth (JS.InLeapYear (JS.cYear clk)) (JS.cMonth clk)
  /\ 0 <= JS.cTime clk < JS.msPerDay.

(** Today's local calendar date. *)
Definition today (clk : JS.Clock) : Z * Z * Z :=
  (JS.cYear clk, JS.cMonth clk + 1, JS.cDate clk).

(** The same day of the year before; for 29 February, which the year
    before does not have, the day after its 28 February. *)
Definition yearBefore (clk : JS.Clock) : Z * Z * Z :=
  if (JS.cMonth clk =? 1) && (JS.cDate clk =? 29)
  then (JS.cYear clk - 1, 3, 1)
  else (JS.cYear clk - 1, JS.cMonth clk + 1, JS.cDate clk).

(** The claim as the specification words it: accepted exactly when the
    string is a real calendar date of the last 365 days, today included. *)
Definition inLast365Days (clk : JS.Clock) (s : string) : Prop :=
  exists y m d,
    JS.dateFields s = Some (y, m, d)
    /\ dayNumber (today clk) - 365 <= dayNumber (y, m, d)
       <= dayNumber (today clk).

Definition validateDate_365 (clk : JS.Clock) (s : string) : Prop :=
  validateDate clk s = true <-> inLast365Days clk s.

(** Noon of 1 March 2024, local time UTC: 29 February lies in the year
    behind. *)
Definition noonMarch1 : JS.Clock := JS.mkClock 2024 2 1 43200000 0.

(** Two in the morning of 15 June 2024 where local time is UTC+5:30. *)
Definition earlyIndia : JS.Clock := JS.mkClock 2024 5 15 7200000 19800000.

(** ** Loading on mount *)

(** The claim as the specification words it: an absent blob leaves the
    collection empty; a present blob that does not parse is logged and
    leaves the collection empty. *)
Definition loadsAsSpecified (JSON_parse : string -> JS.completion parsed)
    (clk : JS.Clock) (localStorage : gmap string string) : Prop :=
  match localStorage !! storageKey with
  | None =>
      loadEffect JSON_parse localStorage (initialState clk) []
      = JS.Normal (Ready (initialState clk), [])
  | Some blob =>
      forall e, JSON_parse blob = JS.Throw e ->
        exists line,
          loadEffect JSON_parse localStorage (initialState clk) []
          = JS.Normal (Ready (initialState clk), [line])
  end.

(** A parser that finds every text malformed; the platform's finds the
    empty text so. *)
Definition rejectingParser (s : string) : JS.completion parsed :=
  JS.Throw "SyntaxError: Unexpected end of JSON input".

(** A parser that knows one text, the text of an array of entries. *)
Definition oneTextParser (text : string) (v : list MoodEntry.t) (s : string)
  : JS.completion parsed :=
  if String.eqb s text then JS.Normal (Stored v)
  else JS.Throw "SyntaxError: Unexpected token".

(** A parser that agrees with the platform's on four texts: [null], the
    empty object, the number 5 and the empty array. *)
Definition literalParser (s : string) : JS.completion parsed :=
  if String.eqb s "null" then JS.Normal (Foreign JSON.Null)
  else if String.eqb s "{}" then JS.Normal (Foreign (JSON.Object []))
  else if String.eqb s "5" then JS.Normal (Foreign (JSON.Number 5))
  else if String.eqb s "[]" then JS.Normal (Stored [])
  else JS.Throw "SyntaxError: Unexpected token".

Definition isArray (v : JSON.t) : bool :=
  match v with JSON.Array _ => true | _ => false end.

(** ** Vocabulary of the further properties *)

(** A text as [sanitizeString] leaves it: at most 500 characters, none of
    them of the stripped class. *)
Definition sanitized (s : string) : Prop :=
  (String.length s <= 500)%nat
  /\ List.Forall (fun c => unsafeChar c = false) (JS.chars s).

(** A number within [lo, hi], as [validateNumber] tests it. *)
Definition inRange (lo hi x : float) : Prop :=
  JS.isNaN x = false /\ PrimFloat.ltb x lo = false /\ PrimFloat.ltb hi x = false.

(** What every stored entry owes to validation. *)
Definition vetted (e : MoodEntry.t) : Prop :=
  sanitized (MoodEntry.notes e)
  /\ sanitized (MoodEntry.drugNames e)
  /\ inRange 0 24 (MoodEntry.sleep e)
  /\ is_Some (JS.Date_parse (MoodEntry.date e)).

(** A text of decimal digits, at least one. *)
Definition plainDigits (s : string) : Prop :=
  JS.chars s <> [] /\ List.Forall (fun c => JS.isDigit c = true) (JS.chars s).

(** A text of white space only, the empty text included. *)
Definition blank (s : string) : Prop :=
  List.Forall (fun c => JS.isWhiteSpace c = true) (JS.chars s).

(** A drug name as the analysis keys it: not empty, no white space at
    either end, no capital letter, no comma. *)
Definition normalName (k : string) : Prop :=
  JS.truthy k = true
  /\ JS.trim k = k
  /\ JS.toLowerCase k = k
  /\ ~ In (JS.chr 44) (JS.chars k).

(** Two entries that differ, if at all, in the letter case of their drug
    names (and in what the analysis does not read). *)
Definition sameDrugs (a b : MoodEntry.t) : Prop :=
  MoodEntry.mood a = MoodEntry.mood b
  /\ JS.toLowerCase (MoodEntry.drugNames a)
     = JS.toLowerCase (MoodEntry.drugNames b).

(* ================================================================== *)
(** * Part IV. Properties                                             *)
(* ================================================================== *)

(** ** Strings *)

Section StringFacts.

Lemma chars_str (l : list ascii) : JS.chars (JS.str l) = l.
Proof. apply String.list_ascii_of_string_of_list_ascii. Qed.

Lemma str_chars (s : string) : JS.str (JS.chars s) = s.
Proof. apply String.string_of_list_ascii_of_string. Qed.

Lemma length_chars (s : string) : length (JS.chars s) = String.length s.
Proof. induction s as [|c s IH]; simpl; [reflexivity | now rewrite IH]. Qed.

Lemma length_str (l : list ascii) : String.length (JS.str l) = length l.
Proof. now rewrite <- length_chars, chars_str. Qed.

Lemma dropWhile_incl {A} (p : A -> bool) (l : list A) :
  incl (JS.dropWhile p l) l.
Proof.
  induction l as [|x l IH]; simpl.
  - apply incl_refl.
  - destruct (p x); [now apply incl_tl | apply incl_refl].
Qed.

Lemma dropWhile_head_false {A} (p : A -> bool) (l : list A) :
  match l with
  | [] => True
  | x :: _ => p x = false
  end -> JS.dropWhile p l = l.
Proof. destruct l as [|x l]; simpl; [reflexivity | now intros ->]. Qed.

Lemma firstn_incl {A} (n : nat) (l : list A) : incl (firstn n l) l.
Proof.
  revert l. induction n as [|n IH]; intros [|x l]; simpl;
    try (intros y []).
  - subst. now left.
  - right. now apply IH.
Qed.

Lemma trimChars_incl (l : list ascii) : incl (JS.trimChars l) l.
Proof.
  unfold JS.trimChars, JS.trimEnd, JS.trimStart. intros c Hc.
  apply in_rev in Hc. apply dropWhile_incl in Hc.
  apply in_rev in Hc. now apply dropWhile_incl in Hc.
Qed.

Lemma unsafeChar_codes (c : ascii) :
  unsafeChar c = true <-> In (JS.code c) unsafeCodes.
Proof.
  unfold unsafeChar. rewrite existsb_exists. split.
  - intros (n & Hn & E). apply N.eqb_eq in E. now subst.
  - intros H. exists (JS.code c). split; [assumption | apply N.eqb_refl].
Qed.

Lemma filter_all {A} (p : A -> bool) (l : list A) :
  Forall (fun x => p x = true) l -> List.filter p l = l.
Proof.
  induction 1 as [|x l Hx _ IH]; simpl; [reflexivity|].
  now rewrite Hx, IH.
Qed.

Lemma sanitizeString_clean (s : string) :
  cleanText s -> sanitizeString s = JS.substring0 500 s.
Proof.
  intros (Hsafe & Hhd & Htl).
  unfold sanitizeString, JS.removeClass, JS.trim, JS.substring0.
  rewrite !chars_str.
  rewrite filter_all
    by (eapply List.Forall_impl; [|exact Hsafe]; simpl; now intros c ->).
  unfold JS.trimChars, JS.trimStart, JS.trimEnd.
  rewrite (dropWhile_head_false _ (JS.chars s)) by exact Hhd.
  rewrite (dropWhile_head_false _ (rev (JS.chars s))) by exact Htl.
  now rewrite rev_involutive.
Qed.

End StringFacts.

Lemma sanitizeString_chars (s : string) :
  JS.chars (sanitizeString s)
  = firstn 500
      (JS.trimChars (List.filter (fun c => negb (unsafeChar c)) (JS.chars s))).
Proof.
  unfold sanitizeString, JS.substring0, JS.trim, JS.removeClass.
  now rewrite !chars_str.
Qed.

Lemma sanitizeString_length (s : string) :
  (String.length (sanitizeString s) <= 500)%nat.
Proof.
  rewrite <- length_chars, sanitizeString_chars. apply firstn_le_length.
Qed.

(** C7: [sanitizeString] removes every occurrence of the ten characters of
    its class, trims white space at both ends and keeps the first 500
    characters of what is left; its result is never longer than 500
    characters and holds none of the removed characters. *)
Theorem sanitizeString_spec (s : string) :
  JS.chars (sanitizeString s)
    = firstn 500
        (JS.trimChars
           (List.filter (fun c => negb (unsafeChar c)) (JS.chars s)))
  /\ (String.length (sanitizeString s) <= 500)%nat
  /\ Forall (fun c => ~ In (JS.code c) unsafeCodes)
            (JS.chars (sanitizeString s)).
Proof.
  split; [apply sanitizeString_chars|].
  split; [apply sanitizeString_length|].
  rewrite sanitizeString_chars. apply List.Forall_forall. intros c Hc.
  apply firstn_incl in Hc.
  apply trimChars_incl in Hc.
  apply filter_In in Hc. destruct Hc as [_ Hc].
  rewrite <- unsafeChar_codes.
  destruct (unsafeChar c); simpl in Hc; congruence.
Qed.

Example sanitizeString_runs :
  sanitizeString "  <b>hi</b> (a+b); 'x' & /y  " = "bhib ab x  y".
Proof. vm_compute. reflexivity. Qed.

(** ** Sorting *)

Section SortFacts.

Context {A : Type} (cmp : A -> A -> Z).

Lemma sortInsert_perm (x : A) (l : list A) :
  Permutation (JS.sortInsert cmp x l) (x :: l).
Proof.
  induction l as [|y l IH]; simpl.
  - apply Permutation_refl.
  - destruct (cmp y x <=? 0).
    + eapply perm_trans; [apply perm_skip, IH | apply perm_swap].
    + apply Permutation_refl.
Qed.

Lemma sort_fold_perm (l acc : list A) :
  Permutation (fold_left (fun acc x => JS.sortInsert cmp x acc) l acc)
              (l ++ acc).
Proof.
  revert acc. induction l as [|x l IH]; intros acc; simpl.
  - apply Permutation_refl.
  - eapply perm_trans; [apply IH|].
    eapply perm_trans;
      [apply Permutation_app_head, sortInsert_perm|].
    symmetry. apply Permutation_middle.
Qed.

Lemma sort_perm (l : list A) : Permutation (JS.sort cmp l) l.
Proof.
  unfold JS.sort. eapply perm_trans; [apply sort_fold_perm|].
  now rewrite app_nil_r.
Qed.

(** The comparator is consistent in sign. *)
Hypothesis cmp_sign : forall a b, 0 < cmp a b -> cmp b a <= 0.

Lemma sortInsert_HdRel (a x : A) (l : list A) :
  notAfter cmp a x -> HdRel (notAfter cmp) a l ->
  HdRel (notAfter cmp) a (JS.sortInsert cmp x l).
Proof.
  intros Hax Hal. destruct l as [|y l]; simpl.
  - now constructor.
  - destruct (cmp y x <=? 0); constructor;
      [now inversion Hal | exact Hax].
Qed.

Lemma sortInsert_sorted (x : A) (l : list A) :
  Sorted (notAfter cmp) l -> Sorted (notAfter cmp) (JS.sortInsert cmp x l).
Proof.
  induction 1 as [|y l Hl IH Hy]; simpl.
  - repeat constructor.
  - destruct (cmp y x <=? 0) eqn:E.
    + constructor; [exact IH|].
      apply sortInsert_HdRel; [|exact Hy].
      unfold notAfter. now apply Z.leb_le.
    + constructor; [now constructor|].
      constructor. apply cmp_sign. apply Z.leb_gt in E. lia.
Qed.

Lemma sort_fold_sorted (l acc : list A) :
  Sorted (notAfter cmp) acc ->
  Sorted (notAfter cmp) (fold_left (fun acc x => JS.sortInsert cmp x acc) l acc).
Proof.
  revert acc. induction l as [|x l IH]; intros acc Hacc; simpl.
  - exact Hacc.
  - apply IH. now apply sortInsert_sorted.
Qed.

Lemma sort_sorted (l : list A) : Sorted (notAfter cmp) (JS.sort cmp l).
Proof. apply sort_fold_sorted. constructor. Qed.

End SortFacts.

(** ** The order of date strings *)

Lemma ascii_compare_refl (c : ascii) : Ascii.compare c c = Eq.
Proof. unfold Ascii.compare. apply N.compare_refl. Qed.

Lemma string_compare_refl (s : string) : String.compare s s = Eq.
Proof.
  induction s as [|c s IH]; simpl; [reflexivity|].
  now rewrite ascii_compare_refl.
Qed.

Lemma strLt_irrefl (s : string) : ~ strLt s s.
Proof. unfold strLt. now rewrite string_compare_refl. Qed.

Lemma strLt_trans (a b c : string) : strLt a b -> strLt b c -> strLt a c.
Proof.
  unfold strLt. revert b c.
  induction a as [|x a IH]; intros [|y b] [|z c]; simpl;
    try discriminate; try reflexivity.
  unfold Ascii.compare.
  destruct (N.compare_spec (N_of_ascii x) (N_of_ascii y)) as [Exy|Lxy|Gxy];
    try discriminate;
    destruct (N.compare_spec (N_of_ascii y) (N_of_ascii z)) as [Eyz|Lyz|Gyz];
    try discriminate; intros H1 H2.
  - rewrite Exy, Eyz, N.compare_refl. now apply (IH b c).
  - rewrite Exy. now apply N.compare_lt_iff in Lyz as ->.
  - rewrite <- Eyz. now apply N.compare_lt_iff in Lxy as ->.
  - assert (L : (N_of_ascii x < N_of_ascii z)%N) by lia.
    now apply N.compare_lt_iff in L as ->.
Qed.

Lemma localeCompare_le (a b : string) :
  JS.localeCompare a b <= 0 -> a = b \/ strLt a b.
Proof.
  unfold JS.localeCompare, strLt.
  destruct (String.compare a b) eqn:E; intros H.
  - left. now apply String.compare_eq_iff.
  - now right.
  - lia.
Qed.

Lemma localeCompare_sign (a b : string) :
  0 < JS.localeCompare a b -> JS.localeCompare b a <= 0.
Proof.
  unfold JS.localeCompare. rewrite (String.compare_antisym b a).
  destruct (String.compare a b); simpl; lia.
Qed.

(** ** The entry store *)

Section StoreFacts.

Lemma otherDate_true (d : string) (e : MoodEntry.t) :
  otherDate d e = true <-> MoodEntry.date e <> d.
Proof.
  unfold otherDate. rewrite negb_true_iff. apply String.eqb_neq.
Qed.

Lemma upsert_perm (d : string) (e : MoodEntry.t) (prev : list MoodEntry.t) :
  Permutation (upsert d e prev) (e :: List.filter (otherDate d) prev).
Proof.
  unfold upsert. eapply perm_trans; [apply sort_perm|].
  symmetry. apply Permutation_cons_append.
Qed.

Lemma filter_absent (d : string) (l : list MoodEntry.t) :
  ~ In d (dates l) -> List.filter (otherDate d) l = l.
Proof.
  intros H. apply filter_all. apply List.Forall_forall. intros x Hx.
  apply otherDate_true. intros E. apply H. subst d.
  now apply in_map.
Qed.

Lemma filter_dates_incl (d : string) (l : list MoodEntry.t) :
  incl (dates (List.filter (otherDate d) l)) (dates l).
Proof.
  intros x Hx. apply in_map_iff in Hx as (e & <- & He).
  apply filter_In in He as [He _]. now apply in_map.
Qed.

Lemma filter_dates_without (d : string) (l : list MoodEntry.t) :
  ~ In d (dates (List.filter (otherDate d) l)).
Proof.
  intros Hx. apply in_map_iff in Hx as (e & E & He).
  apply filter_In in He as [_ He]. now apply otherDate_true in He.
Qed.

Lemma filter_uniqueDates (d : string) (l : list MoodEntry.t) :
  uniqueDates l -> uniqueDates (List.filter (otherDate d) l).
Proof.
  unfold uniqueDates, dates. induction l as [|x l IH]; simpl; intros H.
  - constructor.
  - apply List.NoDup_cons_iff in H as [Hx Hl].
    destruct (otherDate d x); simpl; [|now apply IH].
    apply List.NoDup_cons_iff. split; [|now apply IH].
    intros Hin. apply Hx. now apply (filter_dates_incl d l).
Qed.

(** Taking out the one entry of a date leaves all the others. *)
Lemma filter_present (old : MoodEntry.t) (l : list MoodEntry.t) :
  uniqueDates l -> In old l ->
  Permutation l (old :: List.filter (otherDate (MoodEntry.date old)) l).
Proof.
  unfold uniqueDates, dates. induction l as [|x l IH]; simpl; intros H Hin.
  - destruct Hin.
  - apply List.NoDup_cons_iff in H as [Hx Hl]. destruct Hin as [->|Hin].
    + unfold otherDate at 1. rewrite String.eqb_refl. simpl.
      now rewrite filter_absent.
    + assert (Hne : MoodEntry.date x <> MoodEntry.date old).
      { intros E. apply Hx. rewrite E. now apply in_map. }
      apply otherDate_true in Hne. rewrite Hne.
      eapply perm_trans; [apply perm_skip, IH; assumption|].
      apply perm_swap.
Qed.

Lemma upsert_uniqueDates (e : MoodEntry.t) (prev : list MoodEntry.t) :
  uniqueDates prev -> uniqueDates (upsert (MoodEntry.date e) e prev).
Proof.
  intros H. unfold uniqueDates, dates.
  eapply Permutation_NoDup;
    [symmetry; apply Permutation_map, upsert_perm|].
  simpl. apply List.NoDup_cons_iff. split.
  - apply filter_dates_without.
  - now apply filter_uniqueDates.
Qed.

(** Sorting puts no entry before a later one, whatever the store held. *)
Lemma upsert_sorted_weak (d : string) (e : MoodEntry.t)
    (prev : list MoodEntry.t) :
  Sorted (notAfter byDateDesc) (upsert d e prev).
Proof.
  unfold upsert. apply sort_sorted.
  intros a b. unfold byDateDesc. apply localeCompare_sign.
Qed.

Lemma notAfter_newer (a b : MoodEntry.t) :
  notAfter byDateDesc a b -> MoodEntry.date a <> MoodEntry.date b ->
  newer a b.
Proof.
  unfold notAfter, byDateDesc, newer. intros H Hne.
  apply localeCompare_le in H as [E|L]; [congruence | exact L].
Qed.

Lemma sorted_strict (l : list MoodEntry.t) :
  Sorted (notAfter byDateDesc) l -> uniqueDates l -> sortedDesc l.
Proof.
  intros Hs Hu. apply Sorted_StronglySorted.
  { intros a b c. unfold newer. intros H1 H2. eapply strLt_trans; eauto. }
  revert Hu. unfold uniqueDates, dates.
  induction Hs as [|a l Hl IH Ha]; simpl; intros Hu; constructor.
  - apply IH. now apply List.NoDup_cons_iff in Hu.
  - destruct Ha as [|b l Hab]; constructor.
    apply notAfter_newer; [exact Hab|].
    apply List.NoDup_cons_iff in Hu as [Hu _]. simpl in Hu. intuition.
Qed.

Lemma sortedDesc_uniqueDates (l : list MoodEntry.t) :
  sortedDesc l -> uniqueDates l.
Proof.
  unfold sortedDesc, uniqueDates, dates.
  induction 1 as [|a l Hl IH Ha]; simpl; constructor; [|exact IH].
  intros Hin. apply in_map_iff in Hin as (b & E & Hb).
  rewrite List.Forall_forall in Ha. specialize (Ha b Hb).
  unfold newer in Ha. rewrite E in Ha. now apply strLt_irrefl in Ha.
Qed.

Lemma upsert_sortedDesc (e : MoodEntry.t) (prev : list MoodEntry.t) :
  uniqueDates prev -> sortedDesc (upsert (MoodEntry.date e) e prev).
Proof.
  intros H. apply sorted_strict; [apply upsert_sorted_weak|].
  now apply upsert_uniqueDates.
Qed.

End StoreFacts.

(** C2: after an upsert into a collection that holds at most one entry
    per date, the collection is sorted by date strictly descending (every
    entry is dated later, in the order of the date strings, than all that
    follow it) and still holds at most one entry per date. *)
Theorem upsert_sorted_unique (e : MoodEntry.t) (prev : list MoodEntry.t) :
  uniqueDates prev ->
  sortedDesc (upsert (MoodEntry.date e) e prev)
  /\ uniqueDates (upsert (MoodEntry.date e) e prev).
Proof.
  intros H. split.
  - now apply upsert_sortedDesc.
  - now apply upsert_uniqueDates.
Qed.

(** The same for every store reached from the empty one. *)
Lemma upsertAll_sorted (es : list MoodEntry.t) (store : list MoodEntry.t) :
  sortedDesc store -> sortedDesc (upsertAll es store).
Proof.
  revert store. induction es as [|e es IH]; intros store H; simpl.
  - exact H.
  - apply IH, upsert_sortedDesc. now apply sortedDesc_uniqueDates.
Qed.

Lemma reachable_sorted (es : list MoodEntry.t) : sortedDesc (upsertAll es []).
Proof. apply upsertAll_sorted. constructor. Qed.

Lemma upsert_sorted_unique_witness :
  sortedDesc (upsert (MoodEntry.date entryJune2) entryJune2 [entryJune1])
  /\ uniqueDates (upsert (MoodEntry.date entryJune2) entryJune2 [entryJune1]).
Proof.
  apply (upsert_sorted_unique entryJune2 [entryJune1]).
  unfold uniqueDates. simpl. constructor; [simpl; tauto | constructor].
Defined.

(** C3: upserting an entry whose date is already in the collection (which
    holds one entry per date) replaces the entry of that date: the old
    entry goes and the new one comes, the size stays, every entry of
    another date stays as it is, and the entry found under that date is
    the new one. *)
Theorem upsert_replaces (e : MoodEntry.t) (prev : list MoodEntry.t) :
  uniqueDates prev ->
  In (MoodEntry.date e) (dates prev) ->
  let next := upsert (MoodEntry.date e) e prev in
  (exists old, In old prev /\ MoodEntry.date old = MoodEntry.date e
               /\ Permutation (old :: next) (e :: prev))
  /\ length next = length prev
  /\ (forall x, In x prev -> MoodEntry.date x <> MoodEntry.date e -> In x next)
  /\ (forall x, In x next -> MoodEntry.date x = MoodEntry.date e -> x = e)
  /\ In e next.
Proof.
  intros Hu Hd next.
  pose proof (upsert_perm (MoodEntry.date e) e prev) as Hp. fold next in Hp.
  apply in_map_iff in Hd as (old & Ed & Hold).
  pose proof (filter_present old prev Hu Hold) as Hf. rewrite Ed in Hf.
  assert (Hswap : Permutation (old :: next) (e :: prev)).
  { eapply perm_trans; [apply perm_skip, Hp|].
    eapply perm_trans; [apply perm_swap|].
    apply perm_skip. now symmetry. }
  split; [now exists old|]. split; [|split; [|split]].
  - apply Permutation_length in Hswap. simpl in Hswap. lia.
  - intros x Hx Hne. eapply Permutation_in; [symmetry; exact Hp|].
    right. apply filter_In. split; [exact Hx | now apply otherDate_true].
  - intros x Hx E. eapply Permutation_in in Hx; [|exact Hp].
    destruct Hx as [->|Hx]; [reflexivity|].
    apply filter_In in Hx as [_ Hx]. now apply otherDate_true in Hx.
  - eapply Permutation_in; [symmetry; exact Hp | now left].
Qed.

Lemma upsert_replaces_witness :
  let next := upsert (MoodEntry.date entryJune1b) entryJune1b
                     [entryJune2; entryJune1] in
  (exists old, In old [entryJune2; entryJune1]
               /\ MoodEntry.date old = MoodEntry.date entryJune1b
               /\ Permutation (old :: next) (entryJune1b :: [entryJune2; entryJune1]))
  /\ length next = length [entryJune2; entryJune1]
  /\ (forall x, In x [entryJune2; entryJune1] ->
                MoodEntry.date x <> MoodEntry.date entryJune1b -> In x next)
  /\ (forall x, In x next ->
                MoodEntry.date x = MoodEntry.date entryJune1b -> x = entryJune1b)
  /\ In entryJune1b next.
Proof.
  apply (upsert_replaces entryJune1b [entryJune2; entryJune1]).
  - unfold uniqueDates. simpl.
    constructor; [simpl; intros [H|[]]; discriminate H|].
    constructor; [simpl; tauto | constructor].
  - simpl. right. left. reflexivity.
Defined.

(** C10: upserting an entry whose date is not in the collection makes the
    collection one longer, and every entry stored before is still there,
    the same record. *)
Theorem upsert_adds (e : MoodEntry.t) (prev : list MoodEntry.t) :
  ~ In (MoodEntry.date e) (dates prev) ->
  let next := upsert (MoodEntry.date e) e prev in
  length next = S (length prev)
  /\ (forall x, In x prev -> In x next)
  /\ Permutation next (e :: prev).
Proof.
  intros Hd next.
  pose proof (upsert_perm (MoodEntry.date e) e prev) as Hp. fold next in Hp.
  rewrite filter_absent in Hp by exact Hd.
  split; [|split].
  - now apply Permutation_length in Hp.
  - intros x Hx. eapply Permutation_in; [symmetry; exact Hp | now right].
  - exact Hp.
Qed.

Lemma upsert_adds_witness :
  let next := upsert (MoodEntry.date entryJune2) entryJune2 [entryJune1] in
  length next = S (length [entryJune1])
  /\ (forall x, In x [entryJune1] -> In x next)
  /\ Permutation next (entryJune2 :: [entryJune1]).
Proof.
  apply (upsert_adds entryJune2 [entryJune1]).
  simpl. intros [H|[]]. discriminate H.
Defined.

Example upsert_runs :
  upsert "2024-06-01" entryJune1b [entryJune2; entryJune1]
  = [entryJune2; entryJune1b].
Proof. reflexivity. Qed.

(** ** The chart window *)

Section WindowFacts.

Context {A : Type} (R : A -> A -> Prop).

Lemma StronglySorted_skipn (n : nat) (l : list A) :
  StronglySorted R l -> StronglySorted R (skipn n l).
Proof.
  revert l. induction n as [|n IH]; intros l H; simpl; [exact H|].
  destruct H as [|a l Hl _]; [constructor | now apply IH].
Qed.

Lemma StronglySorted_snoc (l : list A) (a : A) :
  StronglySorted R l -> List.Forall (fun x => R x a) l ->
  StronglySorted R (l ++ [a]).
Proof.
  induction 1 as [|b l Hl IH Hb]; simpl; intros Ha.
  - repeat constructor.
  - inversion Ha as [|? ? Hba Hla]; subst. constructor; [now apply IH|].
    apply List.Forall_app. split; [exact Hb | now constructor].
Qed.

End WindowFacts.

Lemma StronglySorted_rev {A} (R : A -> A -> Prop) (l : list A) :
  StronglySorted R l -> StronglySorted (fun a b => R b a) (rev l).
Proof.
  induction 1 as [|a l Hl IH Ha]; simpl; [constructor|].
  apply StronglySorted_snoc; [exact IH|].
  apply List.Forall_forall. intros x Hx. apply in_rev in Hx.
  rewrite List.Forall_forall in Ha. now apply Ha.
Qed.

(** The window is the tail end of the stored array, turned round. *)
Lemma last30Days_tail (entries : list MoodEntry.t) :
  entries
  = firstn (length entries - 30)%nat entries ++ rev (last30Days entries).
Proof.
  unfold last30Days, JS.sliceLast. rewrite rev_involutive.
  symmetry. apply firstn_skipn.
Qed.

Lemma last30Days_length (entries : list MoodEntry.t) :
  length (last30Days entries) = Nat.min 30 (length entries).
Proof.
  unfold last30Days, JS.sliceLast. rewrite length_rev, length_skipn. lia.
Qed.

(** On a store sorted by date descending the window runs in ascending
    date order. *)
Lemma last30Days_ascending (entries : list MoodEntry.t) :
  sortedDesc entries ->
  StronglySorted (fun a b => newer b a) (last30Days entries).
Proof.
  intros H. unfold last30Days, JS.sliceLast.
  apply StronglySorted_rev. now apply StronglySorted_skipn.
Qed.

(** With more than 30 entries in a sorted store, the most recent entry,
    which the store holds first, is outside the window. *)
Lemma last30Days_misses_newest (e : MoodEntry.t) (rest : list MoodEntry.t) :
  sortedDesc (e :: rest) -> (30 <= length rest)%nat ->
  ~ In e (last30Days (e :: rest)).
Proof.
  intros Hs Hlen Hin. unfold last30Days, JS.sliceLast in Hin.
  apply in_rev in Hin.
  replace (length (e :: rest) - 30)%nat with (S (length rest - 30)) in Hin
    by (simpl; lia).
  simpl in Hin.
  assert (Hrest : In e rest).
  { rewrite <- (firstn_skipn (length rest - 30) rest).
    apply in_or_app. now right. }
  apply sortedDesc_uniqueDates in Hs. unfold uniqueDates in Hs. simpl in Hs.
  apply List.NoDup_cons_iff in Hs as [Hs _]. apply Hs. now apply in_map.
Qed.

(** With at most 30 entries the window is the whole store. *)
Lemma last30Days_small (entries : list MoodEntry.t) :
  (length entries <= 30)%nat -> last30Days entries = rev entries.
Proof.
  intros H. unfold last30Days, JS.sliceLast.
  now replace (length entries - 30)%nat with 0%nat by lia.
Qed.

(** C1, on the code: the store holds the 31 days of May, the last day
    first; the chart window is made of the 30 oldest entries, 1 May to
    30 May, and the most recent entry, 31 May, is not in it. *)
Theorem last30Days_drops_newest :
  sortedDesc mayStore
  /\ mayStore = map mayEntry (rev (seq 1 31))
  /\ last30Days mayStore = map mayEntry (seq 1 30)
  /\ ~ In (mayEntry 31) (last30Days mayStore)
  /\ In (mayEntry 1) (last30Days mayStore).
Proof.
  split; [apply reachable_sorted|].
  assert (E : mayStore = map mayEntry (rev (seq 1 31)))
    by (vm_compute; reflexivity).
  assert (W : last30Days mayStore = map mayEntry (seq 1 30))
    by (vm_compute; reflexivity).
  split; [exact E|]. split; [exact W|]. rewrite W. split.
  - intros H. apply in_map_iff in H as (d & Ed & Hd).
    apply in_seq in Hd.
    assert (MoodEntry.id (mayEntry d) = MoodEntry.id (mayEntry 31))
      by now rewrite Ed.
    do 31 (destruct d as [|d]; [try lia; vm_compute in H; discriminate H|]).
    lia.
  - apply in_map_iff. exists 1%nat. split; [reflexivity|].
    apply in_seq. lia.
Qed.

(** ** Drug analysis *)

Section DrugFacts.

Lemma accumulate_lookup (m : float) (acc : gmap string DrugStat)
    (d k : string) :
  inherited k = false ->
  accumulate m acc d !! k
  = if String.eqb k d then Some (bump m (default freshStat (acc !! k)))
    else acc !! k.
Proof.
  intros Hk. unfold accumulate.
  destruct (String.eqb_spec k d) as [<-|Hne].
  - destruct (acc !! k) as [st|] eqn:E; simpl.
    + now rewrite lookup_insert_eq.
    + rewrite Hk. now rewrite lookup_insert_eq.
  - destruct (acc !! d) as [st|] eqn:E.
    + rewrite lookup_insert_ne; congruence.
    + destruct (inherited d); [reflexivity|].
      rewrite lookup_insert_ne; congruence.
Qed.

Lemma accumulate_inherited (m : float) (acc : gmap string DrugStat)
    (d k : string) :
  inherited k = true -> acc !! k = None -> accumulate m acc d !! k = None.
Proof.
  intros Hk Hacc. unfold accumulate.
  destruct (String.eqb_spec k d) as [<-|Hne].
  - now rewrite Hacc, Hk.
  - destruct (acc !! d) as [st|] eqn:E.
    + rewrite lookup_insert_ne; congruence.
    + destruct (inherited d); [exact Hacc|].
      rewrite lookup_insert_ne; congruence.
Qed.

Lemma forEach_lookup (m : float) (ds : list string)
    (acc : gmap string DrugStat) (k : string) :
  inherited k = false ->
  fold_left (accumulate m) ds acc !! k
  = tally (map (fun _ => m) (List.filter (String.eqb k) ds)) (acc !! k).
Proof.
  intros Hk. revert acc. induction ds as [|d ds IH]; intros acc; simpl.
  - reflexivity.
  - rewrite IH, accumulate_lookup by exact Hk.
    destruct (String.eqb k d); reflexivity.
Qed.

Lemma forEach_inherited (m : float) (ds : list string)
    (acc : gmap string DrugStat) (k : string) :
  inherited k = true -> acc !! k = None ->
  fold_left (accumulate m) ds acc !! k = None.
Proof.
  intros Hk. revert acc. induction ds as [|d ds IH]; intros acc H; simpl.
  - exact H.
  - apply IH. now apply accumulate_inherited.
Qed.

Lemma drugStep_mentions (acc : gmap string DrugStat) (e : MoodEntry.t) :
  drugStep acc e = fold_left (accumulate (MoodEntry.mood e)) (mentions e) acc.
Proof.
  unfold drugStep, mentions.
  now destruct (JS.truthy (JS.trim (MoodEntry.drugNames e))).
Qed.

Lemma reduce_lookup (entries : list MoodEntry.t)
    (acc : gmap string DrugStat) (k : string) :
  inherited k = false ->
  fold_left drugStep entries acc !! k
  = tally (mentionMoods k entries) (acc !! k).
Proof.
  intros Hk. revert acc.
  induction entries as [|e entries IH]; intros acc; simpl.
  - reflexivity.
  - rewrite IH, drugStep_mentions, forEach_lookup by exact Hk.
    unfold tally. now rewrite fold_left_app.
Qed.

Lemma reduce_inherited (entries : list MoodEntry.t)
    (acc : gmap string DrugStat) (k : string) :
  inherited k = true -> acc !! k = None ->
  fold_left drugStep entries acc !! k = None.
Proof.
  intros Hk. revert acc.
  induction entries as [|e entries IH]; intros acc H; simpl.
  - exact H.
  - apply IH. rewrite drugStep_mentions. now apply forEach_inherited.
Qed.

End DrugFacts.

(** Every name that no plain object inherits is tallied over all the
    entries, once per mention, repeated mentions in one entry included. *)
Lemma drugAnalysis_tally (entries : list MoodEntry.t) (drug : string) :
  inherited drug = false ->
  drugAnalysis entries !! drug = tally (mentionMoods drug entries) None.
Proof.
  intros H. unfold drugAnalysis. now rewrite reduce_lookup, lookup_empty.
Qed.

(** A name that a plain object inherits never becomes a property of the
    result. *)
Lemma drugAnalysis_inherited (entries : list MoodEntry.t) (drug : string) :
  inherited drug = true -> drugAnalysis entries !! drug = None.
Proof.
  intros H. unfold drugAnalysis. apply reduce_inherited; [exact H|].
  apply lookup_empty.
Qed.

(** The worked example of the specification. *)
Example drugAnalysis_caffeine :
  let r := drugAnalysis
             [moodOnly 8%float "caffeine";
              moodOnly 4%float "Caffeine, vitamin d"] in
  r !! "caffeine" = Some (mkStat 12%float 2%float 6%float)
  /\ r !! "vitamin d" = Some (mkStat 4%float 1%float 4%float)
  /\ size r = 2%nat.
Proof. vm_compute. repeat split; reflexivity. Qed.

(** Mentions repeated within one entry count one by one. *)
Example drugAnalysis_repeated :
  drugAnalysis [moodOnly 6%float "aspirin, Aspirin ,, aspirin"] !! "aspirin"
  = Some (mkStat 18%float 3%float 6%float).
Proof. vm_compute. reflexivity. Qed.

(** C4, on the code: an entry of mood 5 whose drug is entered as
    [constructor] is not counted: the result has no property of that name
    (nor any other), where the claim has count 1 and average 5; next to
    another drug, only the other one is counted. *)
Theorem drugAnalysis_misses_constructor :
  drugsOf "constructor" = ["constructor"]
  /\ drugAnalysis [moodOnly 5%float "constructor"] = ∅
  /\ drugAnalysis [moodOnly 5%float "Caffeine, Constructor"] !! "constructor"
     = None
  /\ drugAnalysis [moodOnly 5%float "Caffeine, Constructor"] !! "caffeine"
     = Some (mkStat 5%float 1%float 5%float).
Proof. vm_compute. repeat split; reflexivity. Qed.

(** The guard of line 197 changes nothing: a list of drugs that trims to
    the empty string yields no name. *)
Section GuardFacts.

Lemma dropWhile_nil {A} (p : A -> bool) (l : list A) :
  JS.dropWhile p l = [] -> List.Forall (fun x => p x = true) l.
Proof.
  induction l as [|x l IH]; simpl; intros H; [constructor|].
  destruct (p x) eqn:E; [|discriminate H].
  constructor; [exact E | now apply IH].
Qed.

Lemma dropWhile_all {A} (p : A -> bool) (l : list A) :
  List.Forall (fun x => p x = true) l -> JS.dropWhile p l = [].
Proof. induction 1 as [|x l Hx _ IH]; simpl; [reflexivity | now rewrite Hx]. Qed.

Lemma dropWhile_head {A} (p : A -> bool) (l : list A) :
  match JS.dropWhile p l with
  | [] => True
  | x :: _ => p x = false
  end.
Proof.
  induction l as [|x l IH]; simpl; [exact I|].
  destruct (p x) eqn:E; [exact IH | exact E].
Qed.

Lemma trimChars_nil (l : list ascii) :
  JS.trimChars l = [] <-> List.Forall (fun c => JS.isWhiteSpace c = true) l.
Proof.
  unfold JS.trimChars, JS.trimEnd, JS.trimStart. split.
  - intros H. apply (f_equal (@rev ascii)) in H.
    rewrite rev_involutive in H. simpl in H.
    apply dropWhile_nil in H. apply List.Forall_rev in H.
    rewrite rev_involutive in H.
    pose proof (dropWhile_head JS.isWhiteSpace l) as Hh.
    destruct (JS.dropWhile JS.isWhiteSpace l) as [|x r] eqn:E.
    + now apply dropWhile_nil.
    + inversion H; congruence.
  - intros H. now rewrite (dropWhile_all _ l H).
Qed.

Lemma splitChars_without (sep : ascii) (l : list ascii) :
  List.Forall (fun c => Ascii.eqb c sep = false) l ->
  JS.splitChars sep l = [l].
Proof.
  induction 1 as [|c l Hc _ IH]; simpl; [reflexivity|].
  now rewrite Hc, IH.
Qed.

Lemma whiteSpace_not_comma (c : ascii) :
  JS.isWhiteSpace c = true -> Ascii.eqb c (JS.chr 44) = false.
Proof.
  intros H. apply Ascii.eqb_neq. intros ->. vm_compute in H. discriminate H.
Qed.

Lemma str_nil (l : list ascii) : JS.str l = EmptyString -> l = [].
Proof. destruct l; [reflexivity | discriminate]. Qed.

Lemma drugsOf_blank (s : string) :
  JS.truthy (JS.trim s) = false -> drugsOf s = [].
Proof.
  intros H. unfold JS.trim in H.
  destruct (JS.str (JS.trimChars (JS.chars s))) eqn:E; [|discriminate H].
  apply str_nil in E. pose proof E as Hws. apply trimChars_nil in Hws.
  unfold drugsOf, JS.split.
  rewrite splitChars_without
    by (eapply List.Forall_impl; [|exact Hws]; apply whiteSpace_not_comma).
  simpl. unfold JS.trim at 1. rewrite str_chars, E. reflexivity.
Qed.

End GuardFacts.

Lemma mentions_drugsOf (e : MoodEntry.t) :
  mentions e = drugsOf (MoodEntry.drugNames e).
Proof.
  unfold mentions.
  destruct (JS.truthy (JS.trim (MoodEntry.drugNames e))) eqn:E;
    [reflexivity | now rewrite drugsOf_blank].
Qed.

(** ** Form validation *)

(** One field name at a time: the tests on the other names vanish, and
    the one condition left decides both sides. *)
Ltac field_case :=
  cbn; rewrite ?andb_false_r, ?andb_true_r; cbn;
  repeat match goal with
         | |- context [if ?b then _ else _] => destruct b; cbn
         end;
  reflexivity.

Section FormFacts.

Variable clk : JS.Clock.
Variable f : FormData.t.

Lemma lookup_insert_if (b : bool) (k v : string) (m : gmap string string)
    (field : string) :
  (if b then <[k := v]> m else m) !! field
  = if b && String.eqb field k then Some v else m !! field.
Proof.
  destruct b; simpl; [|reflexivity].
  destruct (String.eqb_spec field k) as [->|Hne].
  - apply lookup_insert_eq.
  - apply lookup_insert_ne. congruence.
Qed.

Lemma checkRanged_if (errs : gmap string string) (field : string) :
  checkRanged f errs field
  = if negb (isSome (validateNumber (FormData.get field f) 1 10))
    then <[field := field +:+ " must be between 1-10"]> errs else errs.
Proof.
  unfold checkRanged.
  now destruct (validateNumber (FormData.get field f) 1 10).
Qed.

Lemma validateForm_lookup (field : string) :
  fst (validateForm clk f) !! field = reportFor clk f field.
Proof.
  unfold validateForm, rangedFields. cbn [fst fold_left].
  rewrite !checkRanged_if.
  replace (match validateNumber (FormData.sleep f) 0 24 with
           | Some _ => _ | None => _ end)
    with (if negb (isSome (validateNumber (FormData.sleep f) 0 24))
          then <["sleep" := "Sleep must be between 0-24 hours"]>
                 (if negb (validateDate clk (FormData.date f))
                  then <["date" :=
                          "Please enter a valid date within the last year"]>
                         (∅ : gmap string string)
                  else ∅)
          else (if negb (validateDate clk (FormData.date f))
                then <["date" :=
                        "Please enter a valid date within the last year"]>
                       (∅ : gmap string string)
                else ∅))
    by now destruct (validateNumber (FormData.sleep f) 0 24).
  rewrite !lookup_insert_if, lookup_empty.
  unfold reportFor, fieldOk, messageOf, checkedFields. cbn [existsb].
  destruct (String.eqb_spec field "date") as [->|_]; [field_case|].
  destruct (String.eqb_spec field "sleep") as [->|_]; [field_case|].
  destruct (String.eqb_spec field "stress") as [->|_]; [field_case|].
  destruct (String.eqb_spec field "symptoms") as [->|_]; [field_case|].
  destruct (String.eqb_spec field "mood") as [->|_]; [field_case|].
  destruct (String.eqb_spec field "engagement") as [->|_]; [field_case|].
  destruct (String.eqb_spec field "notes") as [->|_]; [field_case|].
  cbn [orb andb].
  rewrite !andb_false_r. reflexivity.
Qed.

Lemma validateForm_result :
  snd (validateForm clk f) = forallb (fieldOk clk f) checkedFields.
Proof.
  assert (E : snd (validateForm clk f)
              = (size (fst (validateForm clk f)) =? 0)%nat) by reflexivity.
  rewrite E. clear E.
  destruct (forallb (fieldOk clk f) checkedFields) eqn:Hall.
  - apply Nat.eqb_eq, map_size_empty_iff, map_empty. intros field.
    rewrite validateForm_lookup. unfold reportFor.
    destruct (existsb (String.eqb field) checkedFields) eqn:Hin;
      [|reflexivity].
    apply existsb_exists in Hin as (k & Hk & Ek).
    apply String.eqb_eq in Ek. subst k.
    rewrite forallb_forall in Hall. now rewrite (Hall field Hk).
  - apply Nat.eqb_neq. intros Hsz.
    apply map_size_empty_iff in Hsz.
    assert (Hnone : forall field, reportFor clk f field = None).
    { intros field. rewrite <- validateForm_lookup, Hsz. apply lookup_empty. }
    assert (forallb (fieldOk clk f) checkedFields = true); [|congruence].
    apply forallb_forall. intros field Hin.
    specialize (Hnone field). unfold reportFor in Hnone.
    assert (Hex : existsb (String.eqb field) checkedFields = true).
    { apply existsb_exists. exists field. split; [exact Hin|].
      apply String.eqb_refl. }
    rewrite Hex in Hnone. now destruct (fieldOk clk f field).
Qed.

End FormFacts.

Lemma handleSubmit_cases (clk : JS.Clock) (st : State) :
  handleSubmit clk st
  = if forallb (fieldOk clk (formData st)) checkedFields
    then accepted clk st
    else mkState (entries st) (formData st)
                 (fst (validateForm clk (formData st))).
Proof.
  unfold handleSubmit, accepted.
  rewrite <- validateForm_result.
  now destruct (validateForm clk (formData st)) as [errs [|]].
Qed.

(** An accepted submission is an upsert of the entry made from the form,
    under the form's date. *)
Lemma accepted_upsert (clk : JS.Clock) (st : State) :
  let e := makeEntry clk (formData st) in
  MoodEntry.date e = FormData.date (formData st)
  /\ entries (accepted clk st) = upsert (MoodEntry.date e) e (entries st).
Proof. split; reflexivity. Qed.

(** Submissions, accepted or not, keep the store sorted. *)
Lemma handleSubmit_sorted (clk : JS.Clock) (st : State) :
  sortedDesc (entries st) -> sortedDesc (entries (handleSubmit clk st)).
Proof.
  intros H. rewrite handleSubmit_cases.
  destruct (forallb _ checkedFields); [|exact H].
  apply (upsert_sortedDesc (makeEntry clk (formData st))).
  now apply sortedDesc_uniqueDates.
Qed.

(** C5: validation is all or nothing.  Every checked field has an error
    message in the record exactly when its check fails, so all failing
    fields are reported together; and when some field fails the
    submission is rejected: the collection and the form stay as they
    were, and the state shows that error record. *)
Theorem validateForm_all_or_nothing (clk : JS.Clock) (st : State) :
  let errs := fst (validateForm clk (formData st)) in
  (forall field, In field checkedFields ->
     (errs !! field = Some (messageOf field)
        <-> fieldOk clk (formData st) field = false)
     /\ (errs !! field = None <-> fieldOk clk (formData st) field = true))
  /\ ((exists field, In field checkedFields
                     /\ fieldOk clk (formData st) field = false) ->
      snd (validateForm clk (formData st)) = false
      /\ entries (handleSubmit clk st) = entries st
      /\ formData (handleSubmit clk st) = formData st
      /\ errors (handleSubmit clk st) = errs).
Proof.
  intros errs. split.
  - intros field Hin. unfold errs. rewrite validateForm_lookup.
    unfold reportFor.
    assert (Hex : existsb (String.eqb field) checkedFields = true).
    { apply existsb_exists. exists field. split; [exact Hin|].
      apply String.eqb_refl. }
    rewrite Hex. destruct (fieldOk clk (formData st) field); simpl;
      split; split; congruence.
  - intros (field & Hin & Hbad).
    assert (Hall : forallb (fieldOk clk (formData st)) checkedFields = false).
    { destruct (forallb _ checkedFields) eqn:E; [|reflexivity].
      rewrite forallb_forall in E. rewrite (E field Hin) in Hbad.
      discriminate Hbad. }
    rewrite validateForm_result, handleSubmit_cases, Hall. auto.
Qed.

Lemma validateForm_all_or_nothing_witness :
  let st := mkState [entryJune1] formNineNotes ∅ in
  snd (validateForm noonJune15 (formData st)) = false
  /\ entries (handleSubmit noonJune15 st) = entries st
  /\ formData (handleSubmit noonJune15 st) = formData st
  /\ errors (handleSubmit noonJune15 st)
     = fst (validateForm noonJune15 (formData st)).
Proof.
  intros st.
  apply (validateForm_all_or_nothing noonJune15 st).
  exists "notes". split; [simpl; tauto | vm_compute; reflexivity].
Defined.

(** Notes of nine characters: rejected with the notes error alone. *)
Example submit_nine_notes :
  handleSubmit noonJune15 (mkState [entryJune1] formNineNotes ∅)
  = mkState [entryJune1] formNineNotes
            {["notes" := "Notes must be at least 10 characters"]}.
Proof. vm_compute. reflexivity. Qed.

(** A mood of 11: rejected with the mood error alone. *)
Example submit_mood_eleven :
  handleSubmit noonJune15 (mkState [entryJune1] formMoodEleven ∅)
  = mkState [entryJune1] formMoodEleven
            {["mood" := "mood must be between 1-10"]}.
Proof. vm_compute. reflexivity. Qed.

(** Seven failing fields are reported in one record. *)
Example submit_all_wrong :
  let st := handleSubmit noonJune15 (mkState [entryJune1] formAllWrong ∅) in
  entries st = [entryJune1] /\ size (errors st) = 7%nat.
Proof. vm_compute. split; reflexivity. Qed.

(** ** Stored notes *)

(** C8, counterexample: ten angle brackets pass the length check and are
    stored as the empty string. *)
Lemma storesLongNotes_fails :
  ~ storesLongNotes noonJune15 (mkState [] formBrackets ∅).
Proof.
  intros H.
  assert (Hok : snd (validateForm noonJune15 formBrackets) = true)
    by (vm_compute; reflexivity).
  specialize (H Hok (makeEntry noonJune15 formBrackets)).
  assert (Hin : In (makeEntry noonJune15 formBrackets)
                   (entries (handleSubmit noonJune15
                                          (mkState [] formBrackets ∅))))
    by (vm_compute; left; reflexivity).
  specialize (H Hin eq_refl). vm_compute in H. lia.
Qed.

Example submit_brackets :
  map MoodEntry.notes
      (entries (handleSubmit noonJune15 (mkState [] formBrackets ∅)))
  = [EmptyString].
Proof. vm_compute. reflexivity. Qed.

Lemma forallb_checked (clk : JS.Clock) (f : FormData.t) (field : string) :
  snd (validateForm clk f) = true -> In field checkedFields ->
  fieldOk clk f field = true.
Proof.
  rewrite validateForm_result, forallb_forall. intros H Hin. now apply H.
Qed.

(** C8, amended: the entry a validated submission stores holds the
    sanitized form of notes that were at least 10 characters long as
    typed; the stored notes are at most 500 characters long, and at least
    10 when sanitizing had nothing to strip from the typed text. *)
Theorem submitted_notes_sanitized (clk : JS.Clock) (st : State) :
  snd (validateForm clk (formData st)) = true ->
  let raw := FormData.notes (formData st) in
  let e := makeEntry clk (formData st) in
  In e (entries (handleSubmit clk st))
  /\ (forall x, In x (entries (handleSubmit clk st)) ->
                MoodEntry.date x = FormData.date (formData st) -> x = e)
  /\ MoodEntry.notes e = sanitizeString raw
  /\ (10 <= String.length raw)%nat
  /\ (String.length (MoodEntry.notes e) <= 500)%nat
  /\ (cleanText raw -> (10 <= String.length (MoodEntry.notes e))%nat).
Proof.
  intros Hok raw e.
  assert (Hraw : (10 <= String.length raw)%nat).
  { pose proof (forallb_checked clk (formData st) "notes" Hok) as H.
    unfold fieldOk in H. cbn [String.eqb Ascii.eqb Bool.eqb] in H.
    specialize (H ltac:(simpl; tauto)).
    apply negb_true_iff, Nat.ltb_ge in H. exact H. }
  assert (Hents : entries (handleSubmit clk st)
                  = upsert (MoodEntry.date e) e (entries st)).
  { rewrite handleSubmit_cases, <- validateForm_result, Hok. reflexivity. }
  pose proof (upsert_perm (MoodEntry.date e) e (entries st)) as Hp.
  rewrite <- Hents in Hp.
  split; [|split; [|split; [|split; [|split]]]].
  - eapply Permutation_in; [symmetry; exact Hp | now left].
  - intros x Hx Hd. eapply Permutation_in in Hx; [|exact Hp].
    destruct Hx as [->|Hx]; [reflexivity|].
    apply filter_In in Hx as [_ Hx]. apply otherDate_true in Hx.
    now destruct Hx.
  - reflexivity.
  - exact Hraw.
  - apply sanitizeString_length.
  - intros Hclean.
    assert (En : MoodEntry.notes e = sanitizeString raw) by reflexivity.
    rewrite En, (sanitizeString_clean raw Hclean).
    unfold JS.substring0. rewrite length_str, length_firstn, length_chars.
    lia.
Qed.

Lemma submitted_notes_sanitized_witness :
  let st := mkState [entryJune1] formPlain ∅ in
  let raw := FormData.notes (formData st) in
  let e := makeEntry noonJune15 (formData st) in
  In e (entries (handleSubmit noonJune15 st))
  /\ (forall x, In x (entries (handleSubmit noonJune15 st)) ->
                MoodEntry.date x = FormData.date (formData st) -> x = e)
  /\ MoodEntry.notes e = sanitizeString raw
  /\ (10 <= String.length raw)%nat
  /\ (String.length (MoodEntry.notes e) <= 500)%nat
  /\ (cleanText raw -> (10 <= String.length (MoodEntry.notes e))%nat).
Proof.
  intros st.
  apply (submitted_notes_sanitized noonJune15 st).
  vm_compute. reflexivity.
Defined.

(** ** Date validation *)

Ltac each_month m :=
  let H := fresh in
  assert (H : m = 0 \/ m = 1 \/ m = 2 \/ m = 3 \/ m = 4 \/ m = 5 \/ m = 6
              \/ m = 7 \/ m = 8 \/ m = 9 \/ m = 10 \/ m = 11) by lia;
  destruct H as [->|[->|[->|[->|[->|[->|[->|[->|[->|[->|[->| ->]]]]]]]]]]].

Ltac calendar :=
  cbv [JS.MonthStart JS.DaysInMonth Z.eqb Pos.eqb orb] in *; lia.

Lemma DayFromYear_succ (y : Z) :
  JS.DayFromYear (y + 1)
  = JS.DayFromYear y + 365 + (if JS.InLeapYear y then 1 else 0).
Proof.
  unfold JS.DayFromYear, JS.InLeapYear.
  destruct (y mod 4 =? 0) eqn:E4; destruct (y mod 100 =? 0) eqn:E100;
    destruct (y mod 400 =? 0) eqn:E400; cbn [andb orb negb];
    rewrite ?Z.eqb_eq, ?Z.eqb_neq in *;
    Z.div_mod_to_equations; lia.
Qed.

Lemma DayFromYear_mono (y y' : Z) :
  y <= y' -> JS.DayFromYear y <= JS.DayFromYear y'.
Proof.
  intros H. unfold JS.DayFromYear. Z.div_mod_to_equations. lia.
Qed.

Lemma MakeDay_month (y m0 d : Z) :
  0 <= m0 <= 11 ->
  JS.MakeDay y m0 d
  = JS.DayFromYear y + JS.MonthStart (JS.InLeapYear y) m0 + d - 1.
Proof.
  intros H. unfold JS.MakeDay.
  rewrite Z.div_small, Z.mod_small by lia. now rewrite Z.add_0_r.
Qed.

Lemma dayOfYear_bounds (leap : bool) (m0 d : Z) :
  0 <= m0 <= 11 -> 1 <= d <= JS.DaysInMonth leap m0 ->
  0 <= JS.MonthStart leap m0 + d - 1 <= 364 + (if leap then 1 else 0).
Proof.
  intros Hm Hd. each_month m0; destruct leap; calendar.
Qed.

Lemma dayOfYear_order (leap : bool) (m1 d1 m2 d2 : Z) :
  0 <= m1 <= 11 -> 1 <= d1 <= JS.DaysInMonth leap m1 ->
  0 <= m2 <= 11 -> 1 <= d2 <= JS.DaysInMonth leap m2 ->
  (m1 < m2 \/ (m1 = m2 /\ d1 <= d2))
  <-> JS.MonthStart leap m1 + d1 <= JS.MonthStart leap m2 + d2.
Proof.
  intros Hm1 Hd1 Hm2 Hd2.
  each_month m1; each_month m2; destruct leap; calendar.
Qed.

Lemma dayNumber_le (y1 m1 d1 y2 m2 d2 : Z) :
  validYMD y1 m1 d1 -> validYMD y2 m2 d2 ->
  ymdLe (y1, m1, d1) (y2, m2, d2)
  <-> dayNumber (y1, m1, d1) <= dayNumber (y2, m2, d2).
Proof.
  intros [Hm1 Hd1] [Hm2 Hd2]. unfold ymdLe, dayNumber.
  rewrite !MakeDay_month by lia.
  pose proof (dayOfYear_bounds _ (m1 - 1) _ ltac:(lia) Hd1) as B1.
  pose proof (dayOfYear_bounds _ (m2 - 1) _ ltac:(lia) Hd2) as B2.
  destruct (Z.lt_trichotomy y1 y2) as [L|[E|G]].
  - pose proof (DayFromYear_succ y1) as S1.
    pose proof (DayFromYear_mono (y1 + 1) y2 ltac:(lia)) as M.
    destruct (JS.InLeapYear y1); lia.
  - subst y2.
    pose proof (dayOfYear_order _ (m1 - 1) _ (m2 - 1) _
                                ltac:(lia) Hd1 ltac:(lia) Hd2) as O.
    lia.
  - pose proof (DayFromYear_succ y2) as S2.
    pose proof (DayFromYear_mono (y2 + 1) y1 ltac:(lia)) as M.
    destruct (JS.InLeapYear y2); lia.
Qed.

Lemma DaysInMonth_bounds (leap : bool) (m0 : Z) :
  28 <= JS.DaysInMonth leap m0 <= 31.
Proof.
  unfold JS.DaysInMonth.
  destruct (m0 =? 1), leap, ((m0 =? 3) || (m0 =? 5) || (m0 =? 8) || (m0 =? 10));
    lia.
Qed.

Lemma dateFields_valid (s : string) (y m d : Z) :
  JS.dateFields s = Some (y, m, d) -> validYMD y m d.
Proof.
  unfold JS.dateFields, validYMD.
  pose proof (DaysInMonth_bounds (JS.InLeapYear y) (m - 1)) as B.
  destruct (JS.takeDigits 4 (JS.chars s)) as [[y0 [|h1 r1]]|];
    [intros [= <- <- <-]; lia | | discriminate].
  destruct (JS.isHyphen h1); cbn [negb]; [|discriminate].
  destruct (JS.takeDigits 2 r1) as [[m0 r2]|]; [|discriminate].
  destruct ((1 <=? m0) && (m0 <=? 12)) eqn:Em; cbn [negb]; [|discriminate].
  apply andb_true_iff in Em as [Em1 Em2].
  apply Z.leb_le in Em1, Em2.
  destruct r2 as [|h2 r3]; [intros [= <- <- <-]; lia|].
  destruct (JS.isHyphen h2); cbn [negb]; [|discriminate].
  destruct (JS.takeDigits 2 r3) as [[d0 [|? ?]]|]; try discriminate.
  destruct ((1 <=? d0) && _) eqn:Ed; [|discriminate].
  intros [= <- <- <-].
  apply andb_true_iff in Ed as [Ed1 Ed2].
  apply Z.leb_le in Ed1, Ed2. lia.
Qed.

Lemma leap_not_before (y : Z) :
  JS.InLeapYear y = true -> JS.InLeapYear (y - 1) = false.
Proof.
  unfold JS.InLeapYear. intros H.
  apply andb_true_iff in H as [H _]. apply Z.eqb_eq in H.
  apply andb_false_iff. left. apply Z.eqb_neq.
  Z.div_mod_to_equations. lia.
Qed.

Lemma yearBefore_day (clk : JS.Clock) :
  validClock clk ->
  exists y m d,
    yearBefore clk = (y, m, d) /\ validYMD y m d
    /\ dayNumber (y, m, d)
       = JS.MakeDay (JS.cYear clk - 1) (JS.cMonth clk) (JS.cDate clk).
Proof.
  intros (Hy & Hm & Hd & _). unfold yearBefore.
  destruct ((JS.cMonth clk =? 1) && (JS.cDate clk =? 29)) eqn:E.
  - apply andb_true_iff in E as [E1 E2]. apply Z.eqb_eq in E1, E2.
    rewrite E1, E2 in *.
    assert (L : JS.InLeapYear (JS.cYear clk) = true).
    { destruct (JS.InLeapYear (JS.cYear clk)); [reflexivity|].
      exfalso. calendar. }
    apply leap_not_before in L.
    exists (JS.cYear clk - 1), 3, 1. split; [reflexivity|]. split.
    + unfold validYMD. pose proof (DaysInMonth_bounds
        (JS.InLeapYear (JS.cYear clk - 1)) (3 - 1)). lia.
    + unfold dayNumber. rewrite !MakeDay_month, L by lia.
      change (3 - 1) with 2. calendar.
  - exists (JS.cYear clk - 1), (JS.cMonth clk + 1), (JS.cDate clk).
    split; [reflexivity|].
    replace (JS.cMonth clk + 1 - 1) with (JS.cMonth clk) by lia.
    assert (V : JS.cDate clk
                <= JS.DaysInMonth (JS.InLeapYear (JS.cYear clk - 1))
                                  (JS.cMonth clk)).
    { apply andb_false_iff in E.
      rewrite !Z.eqb_neq in E.
      revert Hd E. generalize (JS.cDate clk).
      generalize (JS.InLeapYear (JS.cYear clk - 1)).
      generalize (JS.InLeapYear (JS.cYear clk)).
      generalize dependent (JS.cMonth clk).
      intros m0 Hm l1 l2 dd Hd E.
      each_month m0; destruct l1, l2; calendar. }
    split.
    + unfold validYMD.
      replace (JS.cMonth clk + 1 - 1) with (JS.cMonth clk) by lia. lia.
    + unfold dayNumber.
      now replace (JS.cMonth clk + 1 - 1) with (JS.cMonth clk) by lia.
Qed.

(** C6, amended: where local time is UTC, a date string of the date-only
    form, naming a real calendar date, is accepted exactly when that date
    lies from the same day of the previous year (1 March for 29 February)
    to today, both included: a span of 365 or 366 days. *)
Theorem validateDate_calendar (clk : JS.Clock) (s : string) (y m d : Z) :
  validClock clk ->
  JS.cTZA clk = 0 ->
  JS.dateFields s = Some (y, m, d) ->
  validateDate clk s = true
  <-> ymdLe (yearBefore clk) (y, m, d) /\ ymdLe (y, m, d) (today clk).
Proof.
  intros Hclk Htz Hs.
  pose proof (dateFields_valid s y m d Hs) as Hv.
  destruct (yearBefore_day clk Hclk) as (y0 & m0 & d0 & Eb & Hv0 & Hday).
  destruct Hclk as (Hy & Hm & Hd & Ht).
  assert (Hvt : validYMD (JS.cYear clk) (JS.cMonth clk + 1) (JS.cDate clk)).
  { unfold validYMD.
    replace (JS.cMonth clk + 1 - 1) with (JS.cMonth clk) by lia. lia. }
  rewrite Eb. unfold today.
  rewrite (dayNumber_le _ _ _ _ _ _ Hv0 Hv), (dayNumber_le _ _ _ _ _ _ Hv Hvt).
  rewrite Hday.
  unfold validateDate, JS.Date_parse. rewrite Hs.
  unfold JS.newDateLocal, JS.now. rewrite Htz.
  replace ((0 <=? JS.cYear clk - 1) && (JS.cYear clk - 1 <=? 99)) with false
    by (symmetry; apply andb_false_iff; right; apply Z.leb_gt; lia).
  unfold dayNumber.
  replace (JS.cMonth clk + 1 - 1) with (JS.cMonth clk) by lia.
  unfold JS.MakeDate, JS.msPerDay in *.
  rewrite andb_true_iff, !Z.leb_le. lia.
Qed.

Lemma validateDate_unparsed (clk : JS.Clock) (s : string) :
  JS.Date_parse s = None -> validateDate clk s = false.
Proof. unfold validateDate. now intros ->. Qed.

Lemma validateDate_calendar_witness :
  validateDate noonJune15 "2024-06-15" = true
  <-> ymdLe (yearBefore noonJune15) (2024, 6, 15)
      /\ ymdLe (2024, 6, 15) (today noonJune15).
Proof.
  apply (validateDate_calendar noonJune15 "2024-06-15" 2024 6 15).
  - vm_compute. repeat split; try reflexivity; discriminate.
  - reflexivity.
  - vm_compute. reflexivity.
Defined.

(** C6, counterexample: on 1 March 2024 the date 1 March 2023, 366 days
    back, is accepted; and at 2 a.m. in a zone east of Greenwich today's
    own date is refused, being read as a UTC midnight still to come. *)
Lemma validateDate_365_fails :
  ~ validateDate_365 noonMarch1 "2023-03-01"
  /\ ~ validateDate_365 earlyIndia "2024-06-15".
Proof.
  split; intros [H1 H2].
  - destruct (H1 ltac:(vm_compute; reflexivity)) as (y & m & d & E & L & _).
    vm_compute in E. injection E as <- <- <-.
    assert (Et : dayNumber (today noonMarch1) = 19783)
      by (vm_compute; reflexivity).
    assert (Ed : dayNumber (2023, 3, 1) = 19417) by (vm_compute; reflexivity).
    rewrite Et, Ed in L. lia.
  - assert (V : validateDate earlyIndia "2024-06-15" = false)
      by (vm_compute; reflexivity).
    rewrite H2 in V; [discriminate V|].
    exists 2024, 6, 15. split; [vm_compute; reflexivity|].
    assert (Et : dayNumber (today earlyIndia) = 19889)
      by (vm_compute; reflexivity).
    assert (Ed : dayNumber (2024, 6, 15) = 19889) by (vm_compute; reflexivity).
    rewrite Et, Ed. lia.
Qed.

(** The date the blank form proposes is refused at that hour. *)
Example validateDate_refuses_default :
  FormData.date (blankForm earlyIndia) = "2024-06-15"
  /\ validateDate earlyIndia (FormData.date (blankForm earlyIndia)) = false.
Proof. vm_compute. split; reflexivity. Qed.

Example validateDate_edges :
  map (validateDate noonJune15)
      ["2024-06-15"; "2024-06-16"; "2023-06-15"; "2023-06-14"; "2024-02-30";
       "yesterday"]
  = [true; false; true; false; false; false].
Proof. vm_compute. reflexivity. Qed.

(** ** Loading on mount *)

(** The guard of line 78 takes a key that holds the empty text, which is
    no JSON, for an absent one: nothing is parsed and nothing logged. *)
Lemma loadsAsSpecified_fails :
  ~ loadsAsSpecified rejectingParser noonJune15 {[storageKey := EmptyString]}.
Proof.
  unfold loadsAsSpecified. rewrite lookup_singleton_eq.
  intros H. destruct (H _ eq_refl) as [line E].
  unfold loadEffect in E. rewrite lookup_singleton_eq in E.
  cbn in E. discriminate E.
Qed.

(** One outcome of the effect against the cases of the statement: those
    that do not apply contradict what was read or parsed. *)
Ltac load_case :=
  repeat split; try reflexivity; intros; try (exfalso; congruence);
  repeat match goal with
         | H : Some _ = Some _ |- _ => injection H as <-
         end;
  try split; try reflexivity; congruence.

(** The effect, case by case.  It never throws.  It leaves the state as it
    was and logs nothing when the key is absent or holds the empty text;
    it leaves the state as it was and logs the error when the text is not
    empty and [JSON.parse] throws on it; otherwise it installs what
    [JSON.parse] returned, of whatever shape, and logs nothing. *)
Lemma loadEffect_outcomes (JSON_parse : string -> JS.completion parsed)
    (clk : JS.Clock) (localStorage : gmap string string) :
  exists m log,
    loadEffect JSON_parse localStorage (initialState clk) []
    = JS.Normal (m, log)
    /\ (localStorage !! storageKey = None ->
        m = Ready (initialState clk) /\ log = [])
    /\ (localStorage !! storageKey = Some EmptyString ->
        m = Ready (initialState clk) /\ log = [])
    /\ (forall blob e,
          localStorage !! storageKey = Some blob -> blob <> EmptyString ->
          JSON_parse blob = JS.Throw e ->
          m = Ready (initialState clk)
          /\ log = ["Error loading entries: " +:+ e])
    /\ (forall blob v,
          localStorage !! storageKey = Some blob -> blob <> EmptyString ->
          JSON_parse blob = JS.Normal (Stored v) ->
          m = Ready (mkState v (blankForm clk) ∅) /\ log = [])
    /\ (forall blob v,
          localStorage !! storageKey = Some blob -> blob <> EmptyString ->
          JSON_parse blob = JS.Normal (Foreign v) ->
          m = Misfit v (blankForm clk) ∅ /\ log = []).
Proof.
  unfold loadEffect.
  destruct (localStorage !! storageKey) as [blob|] eqn:Eget.
  - destruct blob as [|c blob]; cbn [JS.truthy].
    + exists (Ready (initialState clk)), []. load_case.
    + destruct (JSON_parse (String c blob)) as [[v|v]|e] eqn:Eparse;
        cbn [JS.tryCatch].
      * exists (Ready (mkState v (blankForm clk) ∅)), []. load_case.
      * exists (Misfit v (blankForm clk) ∅), []. load_case.
      * exists (Ready (initialState clk)),
          ["Error loading entries: " +:+ e].
        load_case.
  - exists (Ready (initialState clk)), []. load_case.
Qed.

(** Line 152 throws on everything that is not an array. *)
Lemma windowOf_throws (v : JSON.t) :
  isArray v = false -> exists err, windowOf v = JS.Throw err.
Proof. destruct v; simpl; intros H; try discriminate H; eauto. Qed.

(** A text that parses to something else than an array is installed as it
    is, unlogged, and the render that follows throws. *)
Lemma loadEffect_foreign (JSON_parse : string -> JS.completion parsed)
    (localStorage : gmap string string) (st : State) (console : list string)
    (blob : string) (v : JSON.t) :
  localStorage !! storageKey = Some blob ->
  JS.truthy blob = true ->
  JSON_parse blob = JS.Normal (Foreign v) ->
  isArray v = false ->
  loadEffect JSON_parse localStorage st console
  = JS.Normal (Misfit v (formData st) (errors st), console)
  /\ exists err, windowOf v = JS.Throw err.
Proof.
  intros Hget Htext Hparse Hshape. split; [|now apply windowOf_throws].
  unfold loadEffect. now rewrite Hget, Htext, Hparse.
Qed.

(** C9, on the code: the key holds the text [null], which is JSON but no
    array.  [JSON.parse] returns without throwing, so nothing is caught
    and nothing logged; the collection does not fall back to empty:
    [entries] is [null], and the render that follows throws at line 152.
    The same happens with the texts of an object and of a number. *)
Theorem load_null_crashes :
  loadEffect literalParser {[storageKey := "null"]}
             (initialState noonJune15) []
  = JS.Normal (Misfit JSON.Null (blankForm noonJune15) ∅, [])
  /\ windowOf JSON.Null
     = JS.Throw "TypeError: Cannot read properties of null (reading 'slice')"
  /\ loadEffect literalParser {[storageKey := "{}"]}
                (initialState noonJune15) []
     = JS.Normal (Misfit (JSON.Object []) (blankForm noonJune15) ∅, [])
  /\ windowOf (JSON.Object [])
     = JS.Throw "TypeError: entries.slice is not a function"
  /\ loadEffect literalParser {[storageKey := "5"]}
                (initialState noonJune15) []
     = JS.Normal (Misfit (JSON.Number 5) (blankForm noonJune15) ∅, [])
  /\ windowOf (JSON.Number 5)
     = JS.Throw "TypeError: entries.slice is not a function".
Proof. vm_compute. repeat split; reflexivity. Qed.

Example load_malformed :
  loadEffect rejectingParser {[storageKey := "[{oops"]}
             (initialState noonJune15) []
  = JS.Normal
      (Ready (initialState noonJune15),
       ["Error loading entries: SyntaxError: Unexpected end of JSON input"]).
Proof. vm_compute. reflexivity. Qed.

Example load_absent :
  loadEffect rejectingParser ∅ (initialState noonJune15) []
  = JS.Normal (Ready (initialState noonJune15), []).
Proof. reflexivity. Qed.

Example load_stored :
  loadEffect (oneTextParser "[...]" [entryJune2; entryJune1])
             {[storageKey := "[...]"]} (initialState noonJune15) []
  = JS.Normal
      (Ready (mkState [entryJune2; entryJune1] (blankForm noonJune15) ∅), []).
Proof. vm_compute. reflexivity. Qed.

(* ------------------------------------------------------------------ *)
(** * Further properties of the same code                              *)
(* ------------------------------------------------------------------ *)

(** ** The entry store: laws of the upsert *)

Section StoreLaws.

Lemma filter_perm {A} (p : A -> bool) (l1 l2 : list A) :
  Permutation l1 l2 -> Permutation (List.filter p l1) (List.filter p l2).
Proof.
  induction 1 as [|x l1 l2 _ IH|x y l|l1 l2 l3 _ IH1 _ IH2]; simpl.
  - constructor.
  - destruct (p x); [now constructor | exact IH].
  - destruct (p x), (p y); try apply Permutation_refl. apply perm_swap.
  - eapply perm_trans; eassumption.
Qed.

Lemma filter_twice {A} (p : A -> bool) (l : list A) :
  List.filter p (List.filter p l) = List.filter p l.
Proof.
  induction l as [|x l IH]; simpl; [reflexivity|].
  destruct (p x) eqn:E; simpl; [now rewrite E, IH | exact IH].
Qed.

Lemma filter_swap {A} (p q : A -> bool) (l : list A) :
  List.filter p (List.filter q l) = List.filter q (List.filter p l).
Proof.
  induction l as [|x l IH]; simpl; [reflexivity|].
  destruct (p x) eqn:Ep, (q x) eqn:Eq; simpl;
    rewrite ?Ep, ?Eq, IH; reflexivity.
Qed.

(** Two stores sorted strictly by date that hold the same entries are the
    same list. *)
Lemma sortedDesc_perm_eq (l1 l2 : list MoodEntry.t) :
  sortedDesc l1 -> sortedDesc l2 -> Permutation l1 l2 -> l1 = l2.
Proof.
  unfold sortedDesc. intros H1. revert l2.
  induction H1 as [|a l1 Hl1 IH Ha]; intros l2 H2 Hp.
  - apply Permutation_nil in Hp. now subst.
  - destruct H2 as [|b l2 Hl2 Hb].
    + apply Permutation_sym, Permutation_nil in Hp. discriminate Hp.
    + assert (E : a = b).
      { rewrite List.Forall_forall in Ha, Hb.
        assert (Hb' : In b (a :: l1))
          by (eapply Permutation_in; [symmetry; exact Hp | now left]).
        assert (Ha' : In a (b :: l2))
          by (eapply Permutation_in; [exact Hp | now left]).
        destruct Hb' as [E|Hb']; [exact E|].
        destruct Ha' as [E|Ha']; [now symmetry|].
        exfalso. apply (strLt_irrefl (MoodEntry.date a)).
        eapply strLt_trans; [apply (Hb a Ha') | apply (Ha b Hb')]. }
      subst b. f_equal. apply IH; [exact Hl2|].
      now apply Permutation_cons_inv in Hp.
Qed.

Lemma upsert_keeps (d : string) (e : MoodEntry.t) (prev : list MoodEntry.t) :
  MoodEntry.date e = d ->
  List.filter (otherDate d) (upsert d e prev) ≡ₚ List.filter (otherDate d) prev.
Proof.
  intros Ed.
  eapply perm_trans; [apply filter_perm, upsert_perm|].
  simpl. unfold otherDate at 1. rewrite Ed, String.eqb_refl. simpl.
  now rewrite filter_twice.
Qed.

Lemma filter_same_other (d : string) (l : list MoodEntry.t) :
  List.filter (fun x => String.eqb (MoodEntry.date x) d)
              (List.filter (otherDate d) l) = [].
Proof.
  induction l as [|x l IH]; simpl; [reflexivity|].
  unfold otherDate at 1.
  destruct (String.eqb (MoodEntry.date x) d) eqn:E; simpl;
    [exact IH | now rewrite E].
Qed.

End StoreLaws.

(** Upserting the same entry twice is upserting it once. *)
Theorem upsert_idempotent (e : MoodEntry.t) (prev : list MoodEntry.t) :
  uniqueDates prev ->
  upsert (MoodEntry.date e) e (upsert (MoodEntry.date e) e prev)
  = upsert (MoodEntry.date e) e prev.
Proof.
  intros H. pose proof (upsert_uniqueDates e prev H) as Hu.
  apply sortedDesc_perm_eq; try now apply upsert_sortedDesc.
  eapply perm_trans; [apply upsert_perm|].
  eapply perm_trans; [apply perm_skip, upsert_keeps; reflexivity|].
  symmetry. apply upsert_perm.
Qed.

(** The order in which entries of two different dates are upserted does
    not matter. *)
Theorem upsert_commutes (e1 e2 : MoodEntry.t) (prev : list MoodEntry.t) :
  uniqueDates prev ->
  MoodEntry.date e1 <> MoodEntry.date e2 ->
  upsert (MoodEntry.date e1) e1 (upsert (MoodEntry.date e2) e2 prev)
  = upsert (MoodEntry.date e2) e2 (upsert (MoodEntry.date e1) e1 prev).
Proof.
  intros H Hne.
  pose proof (upsert_uniqueDates e1 prev H) as H1.
  pose proof (upsert_uniqueDates e2 prev H) as H2.
  apply sortedDesc_perm_eq; try now apply upsert_sortedDesc.
  assert (K : forall a b : MoodEntry.t,
             MoodEntry.date a <> MoodEntry.date b ->
             upsert (MoodEntry.date a) a (upsert (MoodEntry.date b) b prev)
             ≡ₚ a :: b :: List.filter (otherDate (MoodEntry.date a))
                            (List.filter (otherDate (MoodEntry.date b)) prev)).
  { intros a b Hab. eapply perm_trans; [apply upsert_perm|].
    apply perm_skip.
    eapply perm_trans; [apply filter_perm, upsert_perm|].
    simpl. assert (Eb : otherDate (MoodEntry.date a) b = true)
      by (apply otherDate_true; congruence).
    now rewrite Eb. }
  eapply perm_trans; [apply K; exact Hne|].
  eapply perm_trans; [apply perm_swap|].
  rewrite filter_swap. symmetry. apply K. congruence.
Qed.

(** The store an upsert yields depends on the entries held before, not on
    the order they were held in. *)
Theorem upsert_order_irrelevant (e : MoodEntry.t) (prev prev' : list MoodEntry.t) :
  uniqueDates prev -> Permutation prev prev' ->
  upsert (MoodEntry.date e) e prev = upsert (MoodEntry.date e) e prev'.
Proof.
  intros H Hp.
  assert (H' : uniqueDates prev').
  { unfold uniqueDates, dates in *.
    eapply Permutation_NoDup; [apply Permutation_map; exact Hp | exact H]. }
  apply sortedDesc_perm_eq; try now apply upsert_sortedDesc.
  eapply perm_trans; [apply upsert_perm|].
  eapply perm_trans; [apply perm_skip, filter_perm; exact Hp|].
  symmetry. apply upsert_perm.
Qed.

(** Whatever the store held, duplicates included, after an upsert exactly
    one entry carries the upserted date, the new one, and the store has
    grown by one entry at most. *)
Theorem upsert_single (e : MoodEntry.t) (prev : list MoodEntry.t) :
  let next := upsert (MoodEntry.date e) e prev in
  List.filter (fun x => String.eqb (MoodEntry.date x) (MoodEntry.date e)) next
  = [e]
  /\ (1 <= length next <= S (length prev))%nat.
Proof.
  intros next.
  pose proof (upsert_perm (MoodEntry.date e) e prev) as Hp. fold next in Hp.
  split.
  - apply Permutation_length_1_inv. symmetry.
    eapply perm_trans; [apply filter_perm; exact Hp|].
    simpl. rewrite String.eqb_refl.
    rewrite filter_same_other. apply Permutation_refl.
  - apply Permutation_length in Hp. rewrite Hp. simpl.
    pose proof (filter_length_le (otherDate (MoodEntry.date e)) prev). lia.
Qed.

(** ** Sessions: what typing and submitting can reach *)

Section ReachFacts.

Lemma sanitizeString_sanitized (s : string) : sanitized (sanitizeString s).
Proof.
  split; [apply sanitizeString_length|].
  rewrite sanitizeString_chars. apply List.Forall_forall. intros c Hc.
  apply firstn_incl, trimChars_incl, filter_In in Hc as [_ Hc].
  now apply negb_true_iff in Hc.
Qed.

Lemma validateNumber_inRange (s : string) (lo hi x : float) :
  validateNumber s lo hi = Some x -> x = JS.parseFloat s /\ inRange lo hi x.
Proof.
  unfold validateNumber, inRange.
  destruct (JS.isNaN (JS.parseFloat s)) eqn:E1; [discriminate|].
  destruct (PrimFloat.ltb (JS.parseFloat s) lo) eqn:E2; [discriminate|].
  destruct (PrimFloat.ltb hi (JS.parseFloat s)) eqn:E3; [discriminate|].
  simpl. intros [= <-]. auto.
Qed.

Lemma accepted_sleep (clk : JS.Clock) (f : FormData.t) :
  snd (validateForm clk f) = true ->
  inRange 0 24 (JS.parseFloat (FormData.sleep f)).
Proof.
  intros Hok.
  pose proof (forallb_checked clk f "sleep" Hok ltac:(simpl; tauto)) as H.
  unfold fieldOk in H. cbn [String.eqb Ascii.eqb Bool.eqb] in H.
  destruct (validateNumber (FormData.sleep f) 0 24) as [x|] eqn:E;
    [|discriminate H].
  apply validateNumber_inRange in E as [-> E]. exact E.
Qed.

Lemma accepted_date (clk : JS.Clock) (f : FormData.t) :
  snd (validateForm clk f) = true ->
  is_Some (JS.Date_parse (FormData.date f)).
Proof.
  intros Hok.
  pose proof (forallb_checked clk f "date" Hok ltac:(simpl; tauto)) as H.
  unfold fieldOk in H. cbn [String.eqb Ascii.eqb Bool.eqb] in H.
  unfold validateDate in H.
  destruct (JS.Date_parse (FormData.date f)); [eauto | discriminate H].
Qed.

Lemma makeEntry_vetted (clk : JS.Clock) (f : FormData.t) :
  snd (validateForm clk f) = true -> vetted (makeEntry clk f).
Proof.
  intros Hok. unfold vetted, makeEntry. cbn.
  repeat split; try apply sanitizeString_sanitized;
    try apply (accepted_sleep clk f Hok).
  apply (accepted_date clk f Hok).
Qed.

Lemma handleSubmit_vetted (clk : JS.Clock) (st : State) :
  List.Forall vetted (entries st) ->
  List.Forall vetted (entries (handleSubmit clk st)).
Proof.
  intros H. rewrite handleSubmit_cases, <- validateForm_result.
  destruct (snd (validateForm clk (formData st))) eqn:Hok; [|exact H].
  apply List.Forall_forall. intros x Hx.
  eapply Permutation_in in Hx; [|apply upsert_perm].
  destruct Hx as [<-|Hx]; [now apply makeEntry_vetted|].
  apply filter_In in Hx as [Hx _].
  rewrite List.Forall_forall in H. now apply H.
Qed.

Lemma run_invariant (P : list MoodEntry.t -> Prop) :
  (forall clk st, P (entries st) -> P (entries (handleSubmit clk st))) ->
  forall evs st, P (entries st) -> P (entries (run evs st)).
Proof.
  intros Hstep evs. induction evs as [|ev evs IH]; intros st H; simpl.
  - exact H.
  - apply IH. destruct ev as [field value|clk]; simpl; [exact H|].
    now apply Hstep.
Qed.

End ReachFacts.

(** Whatever is typed and submitted, in whatever order and at whatever
    instants, the entries are sorted by date strictly descending, one to a
    date. *)
Theorem run_sorted (evs : list Event) (clk : JS.Clock) :
  sortedDesc (entries (run evs (initialState clk)))
  /\ uniqueDates (entries (run evs (initialState clk))).
Proof.
  assert (H : sortedDesc (entries (run evs (initialState clk)))).
  { apply (run_invariant sortedDesc); [apply handleSubmit_sorted|].
    constructor. }
  split; [exact H | now apply sortedDesc_uniqueDates].
Qed.

(** Whatever is typed and submitted, every stored entry has sanitized
    notes and drug names (at most 500 characters, none of the stripped
    ones), a sleep value that is a number from 0 to 24, and a date that
    parses. *)
Theorem run_vetted (evs : list Event) (clk : JS.Clock) :
  List.Forall vetted (entries (run evs (initialState clk))).
Proof.
  apply (run_invariant (List.Forall vetted)); [apply handleSubmit_vetted|].
  constructor.
Qed.

(** ** Numbers typed into the form *)

Section NumberFacts.

Lemma isDigit_code (c : ascii) :
  JS.isDigit c = true -> (48 <= JS.code c <= 57)%N.
Proof.
  unfold JS.isDigit. intros H. apply andb_true_iff in H as [H1 H2].
  apply N.leb_le in H1, H2. lia.
Qed.

Lemma span_all {A} (p : A -> bool) (l : list A) :
  List.Forall (fun x => p x = true) l -> JS.span p l = (l, []).
Proof.
  induction 1 as [|x l Hx _ IH]; simpl; [reflexivity|].
  now rewrite Hx, IH.
Qed.

Lemma roundDecimal_integer (m : Z) : JS.roundDecimal m 0 = JS.ofZ m.
Proof.
  unfold JS.roundDecimal. destruct (m =? 0) eqn:E.
  - apply Z.eqb_eq in E. subst m. reflexivity.
  - cbn. now rewrite Z.mul_1_r.
Qed.

Lemma parseFloat_blank (s : string) : blank s -> JS.parseFloat s = nan.
Proof.
  unfold blank, JS.parseFloat, JS.trimStart. intros H.
  now rewrite (dropWhile_all _ _ H).
Qed.

Lemma parseFloat_digits (s : string) :
  plainDigits s -> JS.parseFloat s = JS.ofZ (JS.digitsValue 10 (JS.chars s)).
Proof.
  unfold plainDigits, JS.parseFloat, JS.trimStart.
  destruct (JS.chars s) as [|c r]; intros [Hne Hall]; [congruence|].
  pose proof (List.Forall_inv Hall) as Hc. cbn beta in Hc.
  pose proof (isDigit_code c Hc) as Hcode.
  assert (Hws : JS.isWhiteSpace c = false).
  { unfold JS.isWhiteSpace.
    repeat (apply orb_false_iff; split); try apply andb_false_iff;
      rewrite ?N.eqb_neq, ?N.leb_gt; lia. }
  cbn [JS.dropWhile]. rewrite Hws. unfold JS.takeSign.
  replace (JS.code c =? 45)%N with false by (symmetry; apply N.eqb_neq; lia).
  replace (JS.code c =? 43)%N with false by (symmetry; apply N.eqb_neq; lia).
  assert (HI : JS.startsWith (JS.chars "Infinity") (c :: r) = false).
  { assert (E : Ascii.eqb "I" c = false).
    { apply Ascii.eqb_neq. intros <-. vm_compute in Hc. discriminate Hc. }
    change (JS.startsWith (JS.chars "Infinity") (c :: r))
      with (Ascii.eqb "I" c && JS.startsWith (JS.chars "nfinity") r).
    now rewrite E. }
  rewrite HI, (span_all _ _ Hall). cbn [app JS.exponentPart length].
  rewrite app_nil_r. cbn [Z.of_nat]. rewrite Z.sub_0_r.
  now rewrite roundDecimal_integer.
Qed.

Lemma parseInt_digits (s : string) :
  plainDigits s -> JS.parseInt s = JS.ofZ (JS.digitsValue 10 (JS.chars s)).
Proof.
  unfold plainDigits, JS.parseInt, JS.trimStart.
  destruct (JS.chars s) as [|c r]; intros [Hne Hall]; [congruence|].
  pose proof (List.Forall_inv Hall) as Hc. cbn beta in Hc.
  pose proof (isDigit_code c Hc) as Hcode.
  assert (Hws : JS.isWhiteSpace c = false).
  { unfold JS.isWhiteSpace.
    repeat (apply orb_false_iff; split); try apply andb_false_iff;
      rewrite ?N.eqb_neq, ?N.leb_gt; lia. }
  cbn [JS.dropWhile]. rewrite Hws. unfold JS.takeSign.
  replace (JS.code c =? 45)%N with false by (symmetry; apply N.eqb_neq; lia).
  replace (JS.code c =? 43)%N with false by (symmetry; apply N.eqb_neq; lia).
  assert (Hradix :
            match c :: r with
            | z :: x :: r' =>
                if ((JS.code z =? 48) && ((JS.code x =? 120) || (JS.code x =? 88)))%N
                then (16, r') else (10, c :: r)
            | _ => (10, c :: r)
            end = (10, c :: r)).
  { destruct r as [|x r']; [reflexivity|].
    pose proof (List.Forall_inv (List.Forall_inv_tail Hall)) as Hx.
    cbn beta in Hx. apply isDigit_code in Hx.
    replace (JS.code x =? 120)%N with false by (symmetry; apply N.eqb_neq; lia).
    replace (JS.code x =? 88)%N with false by (symmetry; apply N.eqb_neq; lia).
    now rewrite andb_false_r. }
  rewrite Hradix.
  rewrite (span_all _ (c :: r)); [reflexivity|].
  eapply List.Forall_impl; [|exact Hall]. intros a Ha.
  apply isDigit_code in Ha. apply bool_decide_eq_true.
  unfold JS.digitOf.
  replace ((48 <=? Z.of_N (JS.code a)) && (Z.of_N (JS.code a) <=? 57))
    with true; [eauto|].
  symmetry. apply andb_true_iff. rewrite !Z.leb_le. lia.
Qed.

Lemma validateNumber_blank_text (s : string) (min max : float) :
  blank s -> validateNumber s min max = None.
Proof.
  intros H. unfold validateNumber. now rewrite (parseFloat_blank s H).
Qed.

End NumberFacts.

(** [validateNumber] refuses the empty text and every text of white space
    only, whatever the bounds. *)
Theorem validateNumber_blank (s : string) (min max : float) :
  blank s -> validateNumber s min max = None.
Proof. apply validateNumber_blank_text. Qed.

(** In an accepted submission, a 1-10 field typed as plain decimal digits
    is stored, through [parseInt], as the very number that [validateNumber]
    returned for it through [parseFloat]: a number from 1 to 10. *)
Theorem stored_digits_in_range (clk : JS.Clock) (f : FormData.t) :
  snd (validateForm clk f) = true ->
  let e := makeEntry clk f in
  (plainDigits (FormData.stress f) ->
     validateNumber (FormData.stress f) 1 10 = Some (MoodEntry.stress e)
     /\ inRange 1 10 (MoodEntry.stress e))
  /\ (plainDigits (FormData.symptoms f) ->
        validateNumber (FormData.symptoms f) 1 10 = Some (MoodEntry.symptoms e)
        /\ inRange 1 10 (MoodEntry.symptoms e))
  /\ (plainDigits (FormData.mood f) ->
        validateNumber (FormData.mood f) 1 10 = Some (MoodEntry.mood e)
        /\ inRange 1 10 (MoodEntry.mood e))
  /\ (plainDigits (FormData.engagement f) ->
        validateNumber (FormData.engagement f) 1 10
        = Some (MoodEntry.engagement e)
        /\ inRange 1 10 (MoodEntry.engagement e)).
Proof.
  intros Hok e.
  assert (K : forall field,
             In field rangedFields -> plainDigits (FormData.get field f) ->
             validateNumber (FormData.get field f) 1 10
             = Some (JS.parseInt (FormData.get field f))
             /\ inRange 1 10 (JS.parseInt (FormData.get field f))).
  { intros field Hin Hd.
    assert (Hc : In field checkedFields)
      by (unfold rangedFields in Hin; simpl in *; tauto).
    pose proof (forallb_checked clk f field Hok Hc) as H.
    assert (Hf : fieldOk clk f field
                 = isSome (validateNumber (FormData.get field f) 1 10)).
    { unfold rangedFields in Hin. simpl in Hin.
      destruct Hin as [<-|[<-|[<-|[<-|[]]]]]; reflexivity. }
    rewrite Hf in H.
    destruct (validateNumber (FormData.get field f) 1 10) as [x|] eqn:E;
      [|discriminate H].
    apply validateNumber_inRange in E as [-> E].
    rewrite (parseInt_digits _ Hd), <- (parseFloat_digits _ Hd).
    now split. }
  split; [|split; [|split]]; intros Hd.
  - apply (K "stress"); [simpl; tauto | exact Hd].
  - apply (K "symptoms"); [simpl; tauto | exact Hd].
  - apply (K "mood"); [simpl; tauto | exact Hd].
  - apply (K "engagement"); [simpl; tauto | exact Hd].
Qed.

(** ** Date validation in any zone *)

Section DateLaws.

Lemma validateDate_bounds (clk : JS.Clock) (s : string) (y m d : Z) :
  JS.dateFields s = Some (y, m, d) ->
  validateDate clk s = true
  <-> JS.newDateLocal clk (JS.cYear clk - 1) (JS.cMonth clk) (JS.cDate clk)
        <= dayNumber (y, m, d) * JS.msPerDay <= JS.now clk.
Proof.
  intros Hs. unfold validateDate, JS.Date_parse. rewrite Hs.
  unfold dayNumber, JS.MakeDate.
  rewrite andb_true_iff, !Z.leb_le. lia.
Qed.

End DateLaws.

(** The accepted dates lie together: a date between two accepted dates is
    accepted, whatever the clock and its zone. *)
Theorem validateDate_convex (clk : JS.Clock) (s1 s2 s3 : string)
    (d1 d2 d3 : Z * Z * Z) :
  JS.dateFields s1 = Some d1 -> JS.dateFields s2 = Some d2 ->
  JS.dateFields s3 = Some d3 ->
  ymdLe d1 d2 -> ymdLe d2 d3 ->
  validateDate clk s1 = true -> validateDate clk s3 = true ->
  validateDate clk s2 = true.
Proof.
  destruct d1 as [[y1 m1] a1], d2 as [[y2 m2] a2], d3 as [[y3 m3] a3].
  intros E1 E2 E3 L12 L23 V1 V3.
  pose proof (dateFields_valid _ _ _ _ E1) as W1.
  pose proof (dateFields_valid _ _ _ _ E2) as W2.
  pose proof (dateFields_valid _ _ _ _ E3) as W3.
  apply (dayNumber_le _ _ _ _ _ _ W1 W2) in L12.
  apply (dayNumber_le _ _ _ _ _ _ W2 W3) in L23.
  apply (validateDate_bounds clk _ _ _ _ E1) in V1.
  apply (validateDate_bounds clk _ _ _ _ E3) in V3.
  apply (validateDate_bounds clk _ _ _ _ E2).
  unfold JS.msPerDay in *. lia.
Qed.

(** In any zone at most a day away from UTC the verdict can be off at the
    two ends only: a date strictly between the day a year ago and today is
    accepted, and no date is accepted that lies more than one day outside
    them. *)
Theorem validateDate_any_zone (clk : JS.Clock) (s : string) (y m d : Z) :
  validClock clk ->
  - JS.msPerDay <= JS.cTZA clk <= JS.msPerDay ->
  JS.dateFields s = Some (y, m, d) ->
  (dayNumber (yearBefore clk) < dayNumber (y, m, d) < dayNumber (today clk)
   -> validateDate clk s = true)
  /\ (validateDate clk s = true
      -> dayNumber (yearBefore clk) - 1 <= dayNumber (y, m, d)
         <= dayNumber (today clk) + 1).
Proof.
  intros Hclk Htz Hs.
  destruct (yearBefore_day clk Hclk) as (y0 & m0 & d0 & Eb & _ & Hday).
  destruct Hclk as (Hy & Hm & Hd & Ht).
  rewrite Eb, Hday. unfold today.
  rewrite (validateDate_bounds clk s y m d Hs).
  unfold JS.newDateLocal, JS.now.
  replace ((0 <=? JS.cYear clk - 1) && (JS.cYear clk - 1 <=? 99)) with false
    by (symmetry; apply andb_false_iff; right; apply Z.leb_gt; lia).
  unfold dayNumber.
  replace (JS.cMonth clk + 1 - 1) with (JS.cMonth clk) by lia.
  unfold JS.MakeDate, JS.msPerDay in *. lia.
Qed.

(** ** Drug names *)

Section NameFacts.

Lemma lowerChar_idem (c : ascii) : JS.lowerChar (JS.lowerChar c) = JS.lowerChar c.
Proof. destruct c as [[] [] [] [] [] [] [] []]; reflexivity. Qed.

Lemma lowerChar_ws (c : ascii) :
  JS.isWhiteSpace (JS.lowerChar c) = JS.isWhiteSpace c.
Proof. destruct c as [[] [] [] [] [] [] [] []]; reflexivity. Qed.

Lemma lowerChar_comma (c : ascii) :
  Ascii.eqb (JS.lowerChar c) (JS.chr 44) = Ascii.eqb c (JS.chr 44).
Proof. destruct c as [[] [] [] [] [] [] [] []]; reflexivity. Qed.

Lemma dropWhile_map {A B} (f : A -> B) (p : B -> bool) (q : A -> bool)
    (l : list A) :
  (forall x, p (f x) = q x) ->
  JS.dropWhile p (map f l) = map f (JS.dropWhile q l).
Proof.
  intros H. induction l as [|x l IH]; simpl; [reflexivity|].
  rewrite H. destruct (q x); [exact IH | reflexivity].
Qed.

Lemma trimChars_lower (l : list ascii) :
  JS.trimChars (map JS.lowerChar l) = map JS.lowerChar (JS.trimChars l).
Proof.
  unfold JS.trimChars, JS.trimEnd, JS.trimStart.
  rewrite (dropWhile_map _ _ JS.isWhiteSpace) by apply lowerChar_ws.
  rewrite <- map_rev.
  rewrite (dropWhile_map _ _ JS.isWhiteSpace) by apply lowerChar_ws.
  now rewrite map_rev.
Qed.

Lemma dropWhile_snoc {A} (p : A -> bool) (l : list A) (a : A) :
  p a = false -> JS.dropWhile p (l ++ [a]) = JS.dropWhile p l ++ [a].
Proof.
  intros Ha. induction l as [|x l IH]; simpl; [now rewrite Ha|].
  destruct (p x); [exact IH | reflexivity].
Qed.

Lemma trimChars_fixed (l : list ascii) :
  JS.trimChars (JS.trimChars l) = JS.trimChars l.
Proof.
  unfold JS.trimChars at 1. unfold JS.trimStart, JS.trimEnd.
  assert (Hhd : match JS.trimChars l with
                | [] => True
                | c :: _ => JS.isWhiteSpace c = false
                end).
  { unfold JS.trimChars, JS.trimEnd, JS.trimStart.
    pose proof (dropWhile_head JS.isWhiteSpace l) as Hh.
    destruct (JS.dropWhile JS.isWhiteSpace l) as [|a x]; [exact I|].
    simpl rev. rewrite (dropWhile_snoc _ _ _ Hh), rev_app_distr. exact Hh. }
  assert (Htl : match rev (JS.trimChars l) with
                | [] => True
                | c :: _ => JS.isWhiteSpace c = false
                end).
  { unfold JS.trimChars, JS.trimEnd. rewrite rev_involutive.
    apply dropWhile_head. }
  rewrite (dropWhile_head_false _ (JS.trimChars l) Hhd).
  rewrite (dropWhile_head_false _ (rev (JS.trimChars l)) Htl).
  apply rev_involutive.
Qed.

Lemma splitChars_map (f : ascii -> ascii) (sep : ascii) (l : list ascii) :
  (forall c, Ascii.eqb (f c) sep = Ascii.eqb c sep) ->
  JS.splitChars sep (map f l) = map (map f) (JS.splitChars sep l).
Proof.
  intros Hsep. induction l as [|c l IH]; simpl; [reflexivity|].
  rewrite Hsep, IH.
  destruct (Ascii.eqb c sep); [reflexivity|].
  now destruct (JS.splitChars sep l).
Qed.

Lemma splitChars_no_sep (sep : ascii) (l : list ascii) :
  List.Forall (fun piece => ~ In sep piece) (JS.splitChars sep l).
Proof.
  induction l as [|c l IH]; simpl.
  - constructor; [intros [] | constructor].
  - destruct (Ascii.eqb_spec c sep) as [->|Hne].
    + constructor; [intros [] | exact IH].
    + destruct (JS.splitChars sep l) as [|p ps].
      * constructor; [|constructor]. intros [E|[]]. congruence.
      * inversion IH as [|? ? Hp Hps]; subst. constructor; [|exact Hps].
        intros [E|Hin]; [congruence | now apply Hp].
Qed.

(** The name a piece of the list becomes. *)
Lemma drugsOf_pieces (s : string) :
  drugsOf s
  = List.filter JS.truthy
      (map (fun p => JS.str (map JS.lowerChar (JS.trimChars p)))
           (JS.splitChars (JS.chr 44) (JS.chars s))).
Proof.
  unfold drugsOf, JS.split. rewrite map_map. f_equal.
  apply map_ext. intros p. unfold JS.toLowerCase, JS.trim.
  now rewrite !chars_str.
Qed.

Lemma drugsOf_lower (s : string) : drugsOf (JS.toLowerCase s) = drugsOf s.
Proof.
  rewrite !drugsOf_pieces. unfold JS.toLowerCase.
  rewrite chars_str, (splitChars_map _ _ _ lowerChar_comma), map_map. f_equal.
  apply map_ext. intros p.
  now rewrite trimChars_lower, map_map, (map_ext _ _ lowerChar_idem).
Qed.

Lemma tally_Some (moods : list float) (st : DrugStat) :
  is_Some (tally moods (Some st)).
Proof.
  revert st. induction moods as [|m moods IH]; intros st; simpl; [eauto|].
  apply IH.
Qed.

Lemma mentionMoods_mentioned (k : string) (entries : list MoodEntry.t)
    (e : MoodEntry.t) :
  In e entries -> In k (drugsOf (MoodEntry.drugNames e)) ->
  mentionMoods k entries <> [].
Proof.
  unfold mentionMoods. intros He Hin.
  induction entries as [|x entries IH]; [destruct He|]. simpl.
  intros K. apply app_eq_nil in K as [K1 K2].
  destruct He as [->|He]; [|now apply IH].
  apply map_eq_nil in K1. rewrite mentions_drugsOf in K1.
  assert (Hf : In k (List.filter (String.eqb k)
                                 (drugsOf (MoodEntry.drugNames e))))
    by (apply filter_In; split; [exact Hin | apply String.eqb_refl]).
  rewrite K1 in Hf. destruct Hf.
Qed.

Lemma mentionMoods_cons (k : string) (entries : list MoodEntry.t)
    (m : float) (ms : list float) :
  mentionMoods k entries = m :: ms ->
  exists e, In e entries /\ In k (drugsOf (MoodEntry.drugNames e)).
Proof.
  unfold mentionMoods. induction entries as [|e entries IH]; simpl;
    [discriminate|].
  rewrite mentions_drugsOf.
  destruct (List.filter (String.eqb k) (drugsOf (MoodEntry.drugNames e)))
    as [|x l] eqn:E; simpl.
  - intros H. destruct (IH H) as (e' & He' & Hin). exists e'. auto.
  - intros _. exists e. split; [now left|].
    assert (Hx : In x (List.filter (String.eqb k)
                                   (drugsOf (MoodEntry.drugNames e))))
      by (rewrite E; now left).
    apply filter_In in Hx as [Hx Ek]. apply String.eqb_eq in Ek. now subst x.
Qed.

End NameFacts.

(** The analysis has a record for a name exactly when some entry mentions
    it and no plain object inherits a property of that name. *)
Theorem drugAnalysis_keys (entries : list MoodEntry.t) (k : string) :
  is_Some (drugAnalysis entries !! k)
  <-> inherited k = false
      /\ exists e, In e entries /\ In k (drugsOf (MoodEntry.drugNames e)).
Proof.
  destruct (inherited k) eqn:Hk.
  - rewrite (drugAnalysis_inherited entries k Hk). split.
    + intros [x Hx]. discriminate Hx.
    + intros [H _]. discriminate H.
  - rewrite (drugAnalysis_tally entries k Hk). split.
    + intros Hs. split; [reflexivity|].
      destruct (mentionMoods k entries) as [|m ms] eqn:E.
      * destruct Hs as [x Hx]. discriminate Hx.
      * apply (mentionMoods_cons k entries m ms E).
    + intros [_ (e & He & Hin)].
      pose proof (mentionMoods_mentioned k entries e He Hin) as K.
      destruct (mentionMoods k entries) as [|m ms]; [congruence|].
      simpl. apply tally_Some.
Qed.

(** ** Window, sanitizing, persistence and resubmission *)

Section MoreNameFacts.

Lemma drugsOf_normalName (s k : string) : In k (drugsOf s) -> normalName k.
Proof.
  rewrite drugsOf_pieces. intros H.
  apply filter_In in H as [H Ht].
  apply in_map_iff in H as (p & <- & Hp).
  pose proof (splitChars_no_sep (JS.chr 44) (JS.chars s)) as Hsep.
  rewrite List.Forall_forall in Hsep. specialize (Hsep p Hp).
  split; [exact Ht|]. split; [|split].
  - unfold JS.trim. rewrite chars_str, trimChars_lower.
    now rewrite trimChars_fixed.
  - unfold JS.toLowerCase.
    now rewrite chars_str, map_map, (map_ext _ _ lowerChar_idem).
  - rewrite chars_str. intros Hin.
    apply in_map_iff in Hin as (c & Ec & Hc).
    apply Hsep. apply trimChars_incl in Hc.
    assert (E : Ascii.eqb (JS.lowerChar c) (JS.chr 44) = true)
      by (rewrite Ec; apply Ascii.eqb_refl).
    rewrite lowerChar_comma in E. apply Ascii.eqb_eq in E. now subst c.
Qed.

Lemma drugAnalysis_mentioned (entries : list MoodEntry.t) (k : string) :
  is_Some (drugAnalysis entries !! k) ->
  exists e, In e entries /\ In k (drugsOf (MoodEntry.drugNames e)).
Proof.
  unfold drugAnalysis. intros Hs. destruct (inherited k) eqn:Hk.
  - rewrite (reduce_inherited entries ∅ k Hk (lookup_empty k)) in Hs.
    destruct Hs as [x Hx]. discriminate Hx.
  - rewrite (reduce_lookup entries ∅ k Hk), lookup_empty in Hs.
    destruct (mentionMoods k entries) as [|m ms] eqn:E.
    + destruct Hs as [x Hx]. discriminate Hx.
    + apply (mentionMoods_cons k entries m ms E).
Qed.

Lemma drugStep_lower (acc : gmap string DrugStat) (a b : MoodEntry.t) :
  sameDrugs a b -> drugStep acc a = drugStep acc b.
Proof.
  intros [Hm Hd]. rewrite !drugStep_mentions, !mentions_drugsOf, Hm.
  now rewrite <- (drugsOf_lower (MoodEntry.drugNames a)), Hd, drugsOf_lower.
Qed.

End MoreNameFacts.

(** Every name the analysis has a record for is normalised: not empty,
    trimmed, without capital letters and without commas. *)
Theorem drugAnalysis_keys_normal (entries : list MoodEntry.t) (k : string) :
  is_Some (drugAnalysis entries !! k) -> normalName k.
Proof.
  intros H. destruct (drugAnalysis_mentioned entries k H) as (e & _ & Hin).
  now apply (drugsOf_normalName (MoodEntry.drugNames e)).
Qed.

(** The analysis is blind to the letter case of the drug names: entries
    that agree on mood and on the lower-cased drug list give the same
    result. *)
Theorem drugAnalysis_case_blind (es es' : list MoodEntry.t) :
  List.Forall2 sameDrugs es es' -> drugAnalysis es = drugAnalysis es'.
Proof.
  unfold drugAnalysis. generalize (∅ : gmap string DrugStat).
  intros acc H. revert acc.
  induction H as [|a b es es' Hab _ IH]; intros acc; simpl; [reflexivity|].
  now rewrite (drugStep_lower acc a b Hab), IH.
Qed.

Lemma skipn_incl {A} (n : nat) (l : list A) : incl (skipn n l) l.
Proof.
  revert l. induction n as [|n IH]; intros [|x l]; simpl;
    try apply incl_refl.
  apply incl_tl, IH.
Qed.

(** On a sorted store the chart window runs in ascending date order, holds
    the smaller of 30 and the number of entries, shows only stored
    entries, and shows all of them when there are at most 30. *)
Theorem last30Days_window (entries : list MoodEntry.t) :
  sortedDesc entries ->
  StronglySorted (fun a b => newer b a) (last30Days entries)
  /\ length (last30Days entries) = Nat.min 30 (length entries)
  /\ (forall e, In e (last30Days entries) -> In e entries)
  /\ ((length entries <= 30)%nat ->
      forall e, In e entries -> In e (last30Days entries)).
Proof.
  intros H. split; [now apply last30Days_ascending|].
  split; [apply last30Days_length|]. split.
  - intros e He. unfold last30Days, JS.sliceLast in He.
    apply in_rev in He. now apply skipn_incl in He.
  - intros Hn e He. rewrite last30Days_small by exact Hn.
    now apply in_rev in He.
Qed.

Section SanitizeLaws.

Lemma sublist_List_filter {A} (p : A -> bool) (l : list A) :
  sublist (List.filter p l) l.
Proof.
  induction l as [|x l IH]; simpl; [constructor|].
  destruct (p x); [now apply sublist_skip | now apply sublist_cons].
Qed.

Lemma sublist_dropWhile {A} (p : A -> bool) (l : list A) :
  sublist (JS.dropWhile p l) l.
Proof.
  induction l as [|x l IH]; simpl; [constructor|].
  destruct (p x); [now apply sublist_cons | reflexivity].
Qed.

Lemma sublist_rev {A} (l1 l2 : list A) :
  sublist l1 l2 -> sublist (rev l1) (rev l2).
Proof.
  induction 1 as [|x l1 l2 _ IH|x l1 l2 _ IH]; simpl.
  - constructor.
  - now apply sublist_app.
  - now apply sublist_inserts_r.
Qed.

Lemma sublist_trimChars (l : list ascii) : sublist (JS.trimChars l) l.
Proof.
  unfold JS.trimChars, JS.trimEnd, JS.trimStart.
  etransitivity; [|apply (sublist_dropWhile JS.isWhiteSpace)].
  rewrite <- (rev_involutive (JS.dropWhile JS.isWhiteSpace l)) at 2.
  apply sublist_rev, sublist_dropWhile.
Qed.

Lemma firstn_short {A} (n : nat) (l : list A) :
  (length (firstn n l) < n)%nat -> firstn n l = l.
Proof.
  intros H. apply firstn_all2. rewrite length_firstn in H. lia.
Qed.

Lemma chars_inj (a b : string) : JS.chars a = JS.chars b -> a = b.
Proof. intros H. now rewrite <- (str_chars a), <- (str_chars b), H. Qed.

End SanitizeLaws.

(** [sanitizeString] only deletes: what it returns is the input with some
    characters left out, the others in their order. *)
Theorem sanitizeString_deletes_only (s : string) :
  sublist (JS.chars (sanitizeString s)) (JS.chars s).
Proof.
  rewrite sanitizeString_chars.
  etransitivity; [apply sublist_take|].
  etransitivity; [apply sublist_trimChars|].
  apply sublist_List_filter.
Qed.

(** A sanitized text shorter than the limit of 500 characters is left as
    it is by a second sanitizing. *)
Theorem sanitizeString_stable (s : string) :
  (String.length (sanitizeString s) < 500)%nat ->
  sanitizeString (sanitizeString s) = sanitizeString s.
Proof.
  intros H. apply chars_inj.
  rewrite <- length_chars in H.
  rewrite (sanitizeString_chars (sanitizeString s)).
  rewrite sanitizeString_chars in *.
  set (F := List.filter (fun c => negb (unsafeChar c)) (JS.chars s)) in *.
  pose proof (firstn_short _ _ H) as E. rewrite E.
  assert (Hsafe : List.filter (fun c => negb (unsafeChar c)) (JS.trimChars F)
                  = JS.trimChars F).
  { apply filter_all, List.Forall_forall. intros c Hc.
    apply trimChars_incl in Hc. now apply filter_In in Hc as [_ Hc]. }
  rewrite Hsafe, trimChars_fixed. exact E.
Qed.

(** The list of drugs is never validated: whatever is typed there, the
    verdict and the messages of [validateForm] are the same. *)
Theorem validateForm_ignores_drugNames (clk : JS.Clock) (f : FormData.t)
    (text : string) :
  validateForm clk (setField "drugNames" text f) = validateForm clk f.
Proof. destruct f. reflexivity. Qed.

(** Saving and then loading gives the saved entries back, with nothing
    logged, whenever [JSON.parse] undoes [JSON.stringify] on them. *)
Theorem save_then_load
    (JSON_parse : string -> JS.completion parsed)
    (JSON_stringify : list MoodEntry.t -> string)
    (saved : list MoodEntry.t) (localStorage : gmap string string)
    (st : State) (console : list string) :
  JSON_parse (JSON_stringify saved) = JS.Normal (Stored saved) ->
  JS.truthy (JSON_stringify saved) = true ->
  loadEffect JSON_parse (saveEffect JSON_stringify saved localStorage)
             st console
  = JS.Normal (Ready (mkState saved (formData st) (errors st)), console).
Proof.
  intros Hparse Htext. unfold loadEffect, saveEffect.
  rewrite lookup_insert_eq, Htext, Hparse. reflexivity.
Qed.

(** Submitting again right after an accepted submission, without typing,
    stores nothing: the form is blank again and is rejected. *)
Theorem resubmit_is_rejected (clk clk' : JS.Clock) (st : State) :
  snd (validateForm clk (formData st)) = true ->
  let st1 := handleSubmit clk st in
  entries (handleSubmit clk' st1) = entries st1
  /\ is_Some (errors (handleSubmit clk' st1) !! "sleep").
Proof.
  intros Hok st1.
  assert (E1 : st1 = accepted clk st).
  { unfold st1. now rewrite handleSubmit_cases, <- validateForm_result, Hok. }
  assert (Hbad : fieldOk clk' (formData st1) "sleep" = false).
  { rewrite E1. unfold fieldOk. cbn [String.eqb Ascii.eqb Bool.eqb].
    cbn [accepted formData blankForm FormData.sleep].
    rewrite validateNumber_blank_text; [reflexivity | constructor]. }
  assert (Hall : forallb (fieldOk clk' (formData st1)) checkedFields = false).
  { destruct (forallb _ checkedFields) eqn:E; [|reflexivity].
    rewrite forallb_forall in E.
    rewrite (E "sleep") in Hbad by (simpl; tauto). discriminate Hbad. }
  rewrite handleSubmit_cases, Hall. cbn [entries errors]. split; [reflexivity|].
  rewrite validateForm_lookup. unfold reportFor.
  rewrite Hbad. cbn. eauto.
Qed.

(** ** Runs of the further properties *)

Lemma upsert_idempotent_witness :
  upsert (MoodEntry.date entryJune1b) entryJune1b
         (upsert (MoodEntry.date entryJune1b) entryJune1b
                 [entryJune2; entryJune1])
  = upsert (MoodEntry.date entryJune1b) entryJune1b [entryJune2; entryJune1].
Proof.
  apply (upsert_idempotent entryJune1b [entryJune2; entryJune1]).
  unfold uniqueDates. simpl.
  constructor; [simpl; intros [H|[]]; discriminate H|].
  constructor; [simpl; tauto | constructor].
Defined.

Lemma upsert_commutes_witness :
  upsert (MoodEntry.date entryJune1b) entryJune1b
         (upsert (MoodEntry.date entryJune2) entryJune2 [])
  = upsert (MoodEntry.date entryJune2) entryJune2
           (upsert (MoodEntry.date entryJune1b) entryJune1b []).
Proof.
  apply (upsert_commutes entryJune1b entryJune2 []).
  - constructor.
  - discriminate.
Defined.

Lemma upsert_order_irrelevant_witness :
  upsert (MoodEntry.date entryJune1b) entryJune1b [entryJune2; entryJune1]
  = upsert (MoodEntry.date entryJune1b) entryJune1b [entryJune1; entryJune2].
Proof.
  apply (upsert_order_irrelevant entryJune1b [entryJune2; entryJune1]
                                 [entryJune1; entryJune2]).
  - unfold uniqueDates. simpl.
    constructor; [simpl; intros [H|[]]; discriminate H|].
    constructor; [simpl; tauto | constructor].
  - apply perm_swap.
Defined.

Lemma stored_digits_in_range_witness :
  validateNumber (FormData.mood formPlain) 1 10
  = Some (MoodEntry.mood (makeEntry noonJune15 formPlain))
  /\ inRange 1 10 (MoodEntry.mood (makeEntry noonJune15 formPlain)).
Proof.
  apply (stored_digits_in_range noonJune15 formPlain).
  - vm_compute. reflexivity.
  - split; [discriminate | repeat constructor].
Defined.

Lemma validateNumber_blank_witness :
  validateNumber "   " 0 24 = None.
Proof.
  apply (validateNumber_blank "   " 0 24). repeat constructor.
Defined.

Lemma validateDate_convex_witness :
  validateDate noonJune15 "2024-03-01" = true.
Proof.
  apply (validateDate_convex noonJune15 "2024-01-01" "2024-03-01" "2024-06-01"
                             (2024, 1, 1) (2024, 3, 1) (2024, 6, 1)).
  - vm_compute. reflexivity.
  - vm_compute. reflexivity.
  - vm_compute. reflexivity.
  - simpl. lia.
  - simpl. lia.
  - vm_compute. reflexivity.
  - vm_compute. reflexivity.
Defined.

Lemma validateDate_any_zone_witness :
  validateDate earlyIndia "2024-06-14" = true.
Proof.
  apply (validateDate_any_zone earlyIndia "2024-06-14" 2024 6 14).
  - vm_compute. repeat split; try reflexivity; discriminate.
  - vm_compute. split; discriminate.
  - vm_compute. reflexivity.
  - vm_compute. split; reflexivity.
Defined.

Lemma drugAnalysis_tally_witness :
  drugAnalysis [moodOnly 8 "caffeine"; moodOnly 4 "Caffeine, vitamin d"]
    !! "caffeine"
  = tally (mentionMoods "caffeine"
             [moodOnly 8 "caffeine"; moodOnly 4 "Caffeine, vitamin d"]) None.
Proof.
  apply (drugAnalysis_tally
           [moodOnly 8 "caffeine"; moodOnly 4 "Caffeine, vitamin d"]
           "caffeine").
  reflexivity.
Defined.

Lemma drugAnalysis_keys_normal_witness : normalName "vitamin d".
Proof.
  apply (drugAnalysis_keys_normal
           [moodOnly 8 "caffeine"; moodOnly 4 "Caffeine,  Vitamin D "]
           "vitamin d").
  vm_compute. eauto.
Defined.

Lemma drugAnalysis_case_blind_witness :
  drugAnalysis [moodOnly 8 "Caffeine, Vitamin D"]
  = drugAnalysis [moodOnly 8 "CAFFEINE, vitamin d"].
Proof.
  apply (drugAnalysis_case_blind [moodOnly 8 "Caffeine, Vitamin D"]
                                 [moodOnly 8 "CAFFEINE, vitamin d"]).
  constructor; [|constructor]. split; vm_compute; reflexivity.
Defined.

Lemma last30Days_window_witness :
  StronglySorted (fun a b => newer b a) (last30Days mayStore)
  /\ length (last30Days mayStore) = Nat.min 30 (length mayStore)
  /\ (forall e, In e (last30Days mayStore) -> In e mayStore)
  /\ ((length mayStore <= 30)%nat ->
      forall e, In e mayStore -> In e (last30Days mayStore)).
Proof.
  apply (last30Days_window mayStore). apply reachable_sorted.
Defined.

Lemma sanitizeString_stable_witness :
  sanitizeString (sanitizeString "  <b>hi</b>  ")
  = sanitizeString "  <b>hi</b>  ".
Proof.
  apply (sanitizeString_stable "  <b>hi</b>  ").
  vm_compute. repeat constructor.
Defined.

Lemma save_then_load_witness :
  loadEffect (oneTextParser "[...]" [entryJune2; entryJune1])
             (saveEffect (fun _ => "[...]") [entryJune2; entryJune1] ∅)
             (initialState noonJune15) []
  = JS.Normal (Ready (mkState [entryJune2; entryJune1]
                              (formData (initialState noonJune15))
                              (errors (initialState noonJune15))), []).
Proof.
  apply (save_then_load (oneTextParser "[...]" [entryJune2; entryJune1])
                        (fun _ => "[...]")); reflexivity.
Defined.

Lemma resubmit_is_rejected_witness :
  let st1 := handleSubmit noonJune15 (mkState [entryJune1] formPlain ∅) in
  entries (handleSubmit earlyIndia st1) = entries st1
  /\ is_Some (errors (handleSubmit earlyIndia st1) !! "sleep").
Proof.
  apply (resubmit_is_rejected noonJune15 earlyIndia
                              (mkState [entryJune1] formPlain ∅)).
  vm_compute. reflexivity.
Defined.

Example run_session :
  map MoodEntry.date
      (entries
         (run [Change "sleep" "7"; Change "stress" "3"; Change "symptoms" "2";
               Change "mood" "8"; Change "engagement" "6";
               Change "notes" "a day like any other"; Submit noonJune15;
               Submit noonJune15;
               Change "date" "2024-06-10"; Change "sleep" "6.5";
               Change "stress" "4"; Change "symptoms" "1"; Change "mood" "5";
               Change "engagement" "5"; Change "notes" "<i>catching up</i>";
               Submit noonJune15]
              (initialState noonJune15)))
  = ["2024-06-15"; "2024-06-10"].
Proof. vm_compute. reflexivity. Qed.

